(** * A minimal HTTP router: tokenizer, route registry and dispatch

    Shallow embedding of the Go package [router] (index.go, route.go,
    router.go) together with the parts of the Go standard library it calls
    ([strings], [unicode/utf8], [unicode], [net/url], release 1.16, the one
    named by go.mod).

    Go strings are byte sequences: they are modelled by [string], whose
    characters ([ascii]) are exactly the 256 byte values.  Byte and rune
    values are numbers in [N]. *)

From Stdlib Require Import Bool Arith NArith ZArith Zify Lia List Ascii String.
Import ListNotations.

Local Open Scope string_scope.
Local Open Scope list_scope.

(** ** Bytes *)

Definition byte := ascii.
Bind Scope char_scope with byte.

Definition code (c : byte) : N := N_of_ascii c.

Definition byte_in (lo hi : string) (c : byte) : bool :=
  match lo, hi with
  | String l _, String h _ => (code l <=? code c)%N && (code c <=? code h)%N
  | _, _ => false
  end.

Definition is_upper (c : byte) : bool := byte_in "A" "Z" c.
Definition is_lower (c : byte) : bool := byte_in "a" "z" c.
Definition is_digit (c : byte) : bool := byte_in "0" "9" c.

(** [one_of set c]: the [switch c { case ...: }] test against a list of
    byte literals. *)
Fixpoint one_of (set : string) (c : byte) : bool :=
  match set with
  | EmptyString => false
  | String d set' => Ascii.eqb c d || one_of set' c
  end.

(** [s[n:]] and [s[:n]] for [n <= len(s)]. *)
Fixpoint drop (n : nat) (s : string) : string :=
  match n, s with
  | O, _ => s
  | S n', String _ s' => drop n' s'
  | S _, EmptyString => EmptyString
  end.

Fixpoint take (n : nat) (s : string) : string :=
  match n, s with
  | O, _ => EmptyString
  | S n', String c s' => String c (take n' s')
  | S _, EmptyString => EmptyString
  end.

(** ** Package [unicode/utf8] *)

Module utf8.

Definition RuneError : N := 65533.   (* U+FFFD *)
Definition RuneSelf : N := 128.
Definition MaxRune : N := 1114111.   (* U+10FFFF *)

Definition locb : N := 128.          (* 0b10000000 *)
Definition hicb : N := 191.          (* 0b10111111 *)
Definition maskx : N := 63.          (* 0b00111111 *)
Definition mask2 : N := 31.          (* 0b00011111 *)
Definition mask3 : N := 15.          (* 0b00001111 *)
Definition mask4 : N := 7.           (* 0b00000111 *)

(** The table [first]: information about the first byte of an encoding.
    [0xF0] ([as]) is ASCII, [0xF1] ([xx]) is invalid; otherwise the low
    three bits give the size and the high four bits index
    [acceptRanges]. *)
Definition first (b : N) : N :=
  if (b <? 128)%N then 240          (* 0x00-0x7F: as *)
  else if (b <? 194)%N then 241     (* 0x80-0xC1: xx *)
  else if (b <? 224)%N then 2       (* 0xC2-0xDF: s1 *)
  else if (b =? 224)%N then 19      (* 0xE0: s2 *)
  else if (b <? 237)%N then 3       (* 0xE1-0xEC: s3 *)
  else if (b =? 237)%N then 35      (* 0xED: s4 *)
  else if (b <? 240)%N then 3       (* 0xEE-0xEF: s3 *)
  else if (b =? 240)%N then 52      (* 0xF0: s5 *)
  else if (b <? 244)%N then 4       (* 0xF1-0xF3: s6 *)
  else if (b =? 244)%N then 68      (* 0xF4: s7 *)
  else 241.                         (* 0xF5-0xFF: xx *)

(** [acceptRanges[i]] as the pair [(lo, hi)]; the table has 16 entries,
    all zero from index 5 on. *)
Definition acceptRanges (i : N) : N * N :=
  match i with
  | 0%N => (locb, hicb)
  | 1%N => (160%N, hicb)
  | 2%N => (locb, 159%N)
  | 3%N => (144%N, hicb)
  | 4%N => (locb, 143%N)
  | _ => (0%N, 0%N)
  end.

(** [s[i]] as a number; 0 outside the string (never read there). *)
Definition at_ (s : string) (i : nat) : N :=
  match String.get i s with
  | Some c => code c
  | None => 0%N
  end.

(** [utf8.DecodeRuneInString(s)]: the first rune of [s] and its width
    in bytes; [(RuneError, 1)] on an invalid encoding. *)
Definition DecodeRuneInString (s : string) : N * nat :=
  let n := String.length s in
  if Nat.ltb n 1 then (RuneError, 0) else
  let s0 := at_ s 0 in
  let x := first s0 in
  if (240 <=? x)%N then
    (* mask := rune(x) << 31 >> 31 is all ones exactly when x is odd *)
    (if N.odd x then RuneError else s0, 1)
  else
  let sz := N.to_nat (N.land x 7) in
  let accept := acceptRanges (N.shiftr x 4) in
  if Nat.ltb n sz then (RuneError, 1) else
  let s1 := at_ s 1 in
  if (s1 <? fst accept)%N || (snd accept <? s1)%N then (RuneError, 1) else
  if Nat.leb sz 2 then
    (N.lor (N.shiftl (N.land s0 mask2) 6) (N.land s1 maskx), 2)
  else
  let s2 := at_ s 2 in
  if (s2 <? locb)%N || (hicb <? s2)%N then (RuneError, 1) else
  if Nat.leb sz 3 then
    (N.lor (N.lor (N.shiftl (N.land s0 mask3) 12)
                  (N.shiftl (N.land s1 maskx) 6))
           (N.land s2 maskx), 3)
  else
  let s3 := at_ s 3 in
  if (s3 <? locb)%N || (hicb <? s3)%N then (RuneError, 1) else
  (N.lor (N.lor (N.lor (N.shiftl (N.land s0 mask4) 18)
                       (N.shiftl (N.land s1 maskx) 12))
                (N.shiftl (N.land s2 maskx) 6))
         (N.land s3 maskx), 4).

End utf8.

(** ** Package [unicode] *)

Module unicode.

(** [asciiFold]: the table [SimpleFold] reads for runes below 128. *)
Definition asciiFold (r : N) : N :=
  if (65 <=? r)%N && (r <=? 90)%N then (r + 32)%N          (* 'A'-'Z' *)
  else if (r =? 107)%N then 8490%N                          (* 'k' -> U+212A *)
  else if (r =? 115)%N then 383%N                           (* 's' -> U+017F *)
  else if (97 <=? r)%N && (r <=? 122)%N then (r - 32)%N     (* 'a'-'z' *)
  else r.

(** [unicode.SimpleFold(r)] on the fold orbits that contain an ASCII
    rune: A/a, ..., Z/z, with K/k/U+212A (Kelvin sign) and S/s/U+017F
    (long s) the two orbits of three.  On every other rune this model
    is the identity; the router never folds such a rune, because
    [isValidMethod] compares against ASCII words only and [EqualFold]
    starts folding at the smaller of the two runes. *)
Definition SimpleFold (r : N) : N :=
  if (r <? 128)%N then asciiFold r
  else if (r =? 383)%N then 83%N      (* caseOrbit: U+017F -> 'S' *)
  else if (r =? 8490)%N then 75%N     (* caseOrbit: U+212A -> 'K' *)
  else r.

End unicode.

(** ** Package [strings] *)

Module strings.

(** [strings.HasPrefix(s, prefix)] *)
Fixpoint HasPrefix (s prefix : string) {struct prefix} : bool :=
  match prefix, s with
  | EmptyString, _ => true
  | String p prefix', String c s' => Ascii.eqb c p && HasPrefix s' prefix'
  | String _ _, EmptyString => false
  end.

(** [strings.HasSuffix(s, suffix)]:
    [len(s) >= len(suffix) && s[len(s)-len(suffix):] == suffix] *)
Definition HasSuffix (s suffix : string) : bool :=
  Nat.leb (String.length suffix) (String.length s) &&
  String.eqb (drop (String.length s - String.length suffix) s) suffix.

(** [strings.TrimPrefix(s, prefix)] *)
Definition TrimPrefix (s prefix : string) : string :=
  if HasPrefix s prefix then drop (String.length prefix) s else s.

(** [strings.TrimSuffix(s, suffix)] *)
Definition TrimSuffix (s suffix : string) : string :=
  if HasSuffix s suffix
  then take (String.length s - String.length suffix) s
  else s.

(** [strings.IndexByte(s, c)]; [None] stands for -1. *)
Fixpoint IndexByte (s : string) (c : byte) : option nat :=
  match s with
  | EmptyString => None
  | String d s' =>
      if Ascii.eqb d c then Some O
      else match IndexByte s' c with
           | Some i => Some (S i)
           | None => None
           end
  end.

(** [strings.LastIndex(s, sep)] for a one-byte [sep]. *)
Fixpoint LastIndexByte (s : string) (c : byte) : option nat :=
  match s with
  | EmptyString => None
  | String d s' =>
      match LastIndexByte s' c with
      | Some i => Some (S i)
      | None => if Ascii.eqb d c then Some O else None
      end
  end.

(** [strings.Index(s, substr)]; [None] stands for -1. *)
Fixpoint Index (s substr : string) : option nat :=
  if HasPrefix s substr then Some O
  else match s with
       | EmptyString => None
       | String _ s' =>
           match Index s' substr with
           | Some i => Some (S i)
           | None => None
           end
       end.

(** [strings.Count(s, sep)] for a one-byte [sep]. *)
Fixpoint CountByte (s : string) (c : byte) : nat :=
  match s with
  | EmptyString => O
  | String d s' => (if Ascii.eqb d c then 1 else 0) + CountByte s' c
  end.

(** [strings.Contains(s, sep)] for a one-byte [sep]. *)
Definition ContainsByte (s : string) (c : byte) : bool :=
  match IndexByte s c with Some _ => true | None => false end.

(** [strings.Split(s, sep)] for a one-byte [sep]: the segments between
    consecutive separators, [Count(s, sep) + 1] of them. *)
Fixpoint Split (s : string) (sep : byte) : list string :=
  match s with
  | EmptyString => [EmptyString]
  | String c s' =>
      if Ascii.eqb c sep then EmptyString :: Split s' sep
      else match Split s' sep with
           | seg :: segs => String c seg :: segs
           | [] => [String c EmptyString]
           end
  end.

(** [strings.ToLower] and [strings.ToUpper] on ASCII letters; other bytes
    are kept. *)
Definition lower_byte (c : byte) : byte :=
  if is_upper c then ascii_of_N (code c + 32) else c.

Definition upper_byte (c : byte) : byte :=
  if is_lower c then ascii_of_N (code c - 32) else c.

Fixpoint map_bytes (f : byte -> byte) (s : string) : string :=
  match s with
  | EmptyString => EmptyString
  | String c s' => String (f c) (map_bytes f s')
  end.

Definition ToLower (s : string) : string := map_bytes lower_byte s.
Definition ToUpper (s : string) : string := map_bytes upper_byte s.

(** The first rune of a non-empty [s] and the rest of [s], as the head
    of [EqualFold]'s loop extracts them. *)
Definition next_rune (s : string) : N * string :=
  match s with
  | EmptyString => (utf8.RuneError, EmptyString)
  | String c s' =>
      if (code c <? utf8.RuneSelf)%N then (code c, s')
      else let '(r, size) := utf8.DecodeRuneInString s in (r, drop size s)
  end.

(** [for r != sr && r < tr { r = unicode.SimpleFold(r) }]; a fold orbit
    is walked through in at most [n] steps. *)
Fixpoint fold_up (n : nat) (sr tr r : N) : N :=
  match n with
  | O => r
  | S n' =>
      if negb (r =? sr)%N && (r <? tr)%N
      then fold_up n' sr tr (unicode.SimpleFold r)
      else r
  end.

(** The loop of [strings.EqualFold]; every turn takes at least one byte
    from [s], so [String.length s] turns are enough ([None]: out of
    turns). *)
Fixpoint EqualFold_loop (fuel : nat) (s t : string) : option bool :=
  if String.eqb s "" || String.eqb t "" then Some (String.eqb s t)
  else
    match fuel with
    | O => None
    | S fuel' =>
        let '(sr, s) := next_rune s in
        let '(tr, t) := next_rune t in
        if (tr =? sr)%N then EqualFold_loop fuel' s t
        else
          let '(sr, tr) := if (tr <? sr)%N then (tr, sr) else (sr, tr) in
          if (tr <? utf8.RuneSelf)%N then
            if (65 <=? sr)%N && (sr <=? 90)%N && (tr =? sr + 32)%N
            then EqualFold_loop fuel' s t
            else Some false
          else
            let r := fold_up 4 sr tr (unicode.SimpleFold sr) in
            if (r =? tr)%N then EqualFold_loop fuel' s t else Some false
    end.

(** [strings.EqualFold(s, t)]: equality of [s] and [t], read as UTF-8,
    under simple Unicode case folding. *)
Definition EqualFold (s t : string) : bool :=
  match EqualFold_loop (String.length s) s t with
  | Some b => b
  | None => false
  end.

End strings.

(** ** Results of fallible library calls: Go's [(value, err)] pairs *)

Inductive result (E A : Type) : Type :=
| Ok (a : A)
| Err (e : E).

Arguments Ok {E A} a.
Arguments Err {E A} e.

Definition and_then {E A B} (r : result E A) (k : A -> result E B)
  : result E B :=
  match r with
  | Ok a => k a
  | Err e => Err e
  end.

Notation "'let*' x ':=' r 'in' k" := (and_then r (fun x => k))
  (at level 10, x pattern, r at level 100, k at level 200).

(** ** Package [net/url] *)

Module url.

Inductive encoding : Type :=
| encodePath
| encodePathSegment
| encodeHost
| encodeZone
| encodeUserPassword
| encodeQueryComponent
| encodeFragment.

Definition is_host_mode (mode : encoding) : bool :=
  match mode with encodeHost | encodeZone => true | _ => false end.

(** The errors that parsing produces, before [Parse] wraps them. *)
Inductive parse_error : Type :=
| EscapeError (s : string)          (* invalid URL escape *)
| InvalidHostError (s : string)     (* invalid character in host name *)
| errorString (msg : string)        (* errors.New(msg) *)
| invalidPort (colonPort : string). (* fmt.Errorf("invalid port %q after host", colonPort) *)

(** A pointer to [url.Error{Op, URL, Err}] *)
Inductive Error : Type :=
| mkError (Op URL : string) (Err : parse_error).

Record Userinfo : Type := mkUserinfo {
  username : string;
  password : string;
  passwordSet : bool
}.

(** [url.URL].  [RawPath] and [RawFragment], hints about the original
    encoding that no code of the router reads, are left out. *)
Record URL : Type := mkURL {
  Scheme : string;
  Opaque : string;
  User : option Userinfo;
  Host : string;
  Path : string;
  ForceQuery : bool;
  RawQuery : string;
  Fragment : string
}.

(** [new(URL)] *)
Definition zeroURL : URL := mkURL "" "" None "" "" false "" "".

Definition ishex (c : byte) : bool :=
  byte_in "0" "9" c || byte_in "a" "f" c || byte_in "A" "F" c.

Definition unhex (c : byte) : N :=
  if byte_in "0" "9" c then (code c - 48)%N
  else if byte_in "a" "f" c then (code c - 97 + 10)%N
  else if byte_in "A" "F" c then (code c - 65 + 10)%N
  else 0%N.

(** [shouldEscape(c, mode)] *)
Definition shouldEscape (c : byte) (mode : encoding) : bool :=
  if is_lower c || is_upper c || is_digit c then false
  else if is_host_mode mode
          && (one_of "!$&'()*+,;=:[]<>" c || (code c =? 34)%N (* double quote *))
  then false
  else if one_of "-_.~" c then false
  else if one_of "$&+,/:;=?@" c then
    match mode with
    | encodePath => (c =? "?")%char
    | encodePathSegment => one_of "/;,?" c
    | encodeUserPassword => one_of "@/?:" c
    | encodeQueryComponent => true
    | encodeFragment => false
    | encodeHost | encodeZone => true
    end
  else if match mode with encodeFragment => one_of "!()*" c | _ => false end
  then false
  else true.

(** First loop of [unescape]: the escapes are well formed and, in a host
    or zone, stand for bytes that may be escaped; [None] when it runs to
    the end. *)
Fixpoint unescape_check (mode : encoding) (s : string) : option parse_error :=
  match s with
  | EmptyString => None
  | String c rest =>
      if (c =? "%")%char then
        match rest with
        | String a (String b rest') =>
            if negb (ishex a) || negb (ishex b) then Some (EscapeError (take 3 s))
            else if match mode with encodeHost => true | _ => false end
                    && (unhex a <? 8)%N && negb (String.eqb (take 3 s) "%25")
            then Some (EscapeError (take 3 s))
            else if match mode with encodeZone => true | _ => false end
                    && (let v := N.lor (N.shiftl (unhex a) 4) (unhex b) in
                        negb (String.eqb (take 3 s) "%25")
                        && negb (v =? 32)%N
                        && shouldEscape (ascii_of_N v) encodeHost)
            then Some (EscapeError (take 3 s))
            else unescape_check mode rest'
        | _ => Some (EscapeError (take 3 s))
        end
      else if (c =? "+")%char then unescape_check mode rest
      else if is_host_mode mode && (code c <? 128)%N && shouldEscape c encodeHost
      then Some (InvalidHostError (String c EmptyString))
      else unescape_check mode rest
  end.

(** Second loop of [unescape]: the bytes written to the builder.  (With
    no escape and no converted '+' Go returns [s] itself, which is what
    this loop rebuilds.) *)
Fixpoint unescape_build (mode : encoding) (s : string) : string :=
  match s with
  | EmptyString => EmptyString
  | String c rest =>
      if (c =? "%")%char then
        match rest with
        | String a (String b rest') =>
            String (ascii_of_N (N.lor (N.shiftl (unhex a) 4) (unhex b)))
                   (unescape_build mode rest')
        | _ => EmptyString
        end
      else if (c =? "+")%char then
        String (match mode with encodeQueryComponent => " "%char | _ => "+"%char end)
               (unescape_build mode rest)
      else String c (unescape_build mode rest)
  end.

(** [unescape(s, mode)] *)
Definition unescape (s : string) (mode : encoding) : result parse_error string :=
  match unescape_check mode s with
  | Some e => Err e
  | None => Ok (unescape_build mode s)
  end.

(** [split(s, sep, cutc)] *)
Definition split (s : string) (sep : byte) (cutc : bool) : string * string :=
  match strings.IndexByte s sep with
  | None => (s, "")
  | Some i => if cutc then (take i s, drop (S i) s) else (take i s, drop i s)
  end.

(** [getScheme(rawURL)]: the loop over [i], with [s = rawURL[i:]]. *)
Fixpoint getScheme_loop (rawURL : string) (i : nat) (s : string)
  : result parse_error (string * string) :=
  match s with
  | EmptyString => Ok ("", rawURL)
  | String c s' =>
      if is_lower c || is_upper c then getScheme_loop rawURL (S i) s'
      else if is_digit c || one_of "+-." c then
        if Nat.eqb i 0 then Ok ("", rawURL) else getScheme_loop rawURL (S i) s'
      else if (c =? ":")%char then
        if Nat.eqb i 0 then Err (errorString "missing protocol scheme")
        else Ok (take i rawURL, drop (S i) rawURL)
      else Ok ("", rawURL)
  end.

Definition getScheme (rawURL : string) : result parse_error (string * string) :=
  getScheme_loop rawURL 0 rawURL.

(** [stringContainsCTLByte(s)] *)
Fixpoint stringContainsCTLByte (s : string) : bool :=
  match s with
  | EmptyString => false
  | String b s' =>
      if (code b <? 32)%N || (code b =? 127)%N then true
      else stringContainsCTLByte s'
  end.

(** [validOptionalPort(port)].  The digits are tested byte by byte; Go
    ranges over runes, and no rune of two or more bytes is a digit. *)
Fixpoint all_digits (s : string) : bool :=
  match s with
  | EmptyString => true
  | String b s' => if is_digit b then all_digits s' else false
  end.

Definition validOptionalPort (port : string) : bool :=
  match port with
  | EmptyString => true
  | String c port' => if (c =? ":")%char then all_digits port' else false
  end.

(** [validUserinfo(s)], byte by byte: a rune of two or more bytes is in
    none of the accepted classes. *)
Fixpoint validUserinfo (s : string) : bool :=
  match s with
  | EmptyString => true
  | String r s' =>
      if is_upper r || is_lower r || is_digit r
         || one_of "-._:~!$&'()*+,;=%@" r
      then validUserinfo s'
      else false
  end.

(** [parseHost(host)] *)
Definition parseHost (host : string) : result parse_error string :=
  if strings.HasPrefix host "[" then
    match strings.LastIndexByte host "]" with
    | None => Err (errorString "missing ']' in host")
    | Some i =>
        let colonPort := drop (S i) host in
        if negb (validOptionalPort colonPort) then Err (invalidPort colonPort)
        else
          match strings.Index (take i host) "%25" with
          | Some zone =>
              let* host1 := unescape (take zone host) encodeHost in
              let* host2 := unescape (take (i - zone) (drop zone host)) encodeZone in
              let* host3 := unescape (drop i host) encodeHost in
              Ok (host1 ++ host2 ++ host3)%string
          | None => unescape host encodeHost
          end
    end
  else
    match strings.LastIndexByte host ":" with
    | Some i =>
        let colonPort := drop i host in
        if negb (validOptionalPort colonPort) then Err (invalidPort colonPort)
        else unescape host encodeHost
    | None => unescape host encodeHost
    end.

(** [parseAuthority(authority)] *)
Definition parseAuthority (authority : string)
  : result parse_error (option Userinfo * string) :=
  match strings.LastIndexByte authority "@" with
  | None =>
      let* host := parseHost authority in
      Ok (None, host)
  | Some i =>
      let* host := parseHost (drop (S i) authority) in
      let userinfo := take i authority in
      if negb (validUserinfo userinfo)
      then Err (errorString "net/url: invalid userinfo")
      else if negb (strings.ContainsByte userinfo ":") then
        let* userinfo := unescape userinfo encodeUserPassword in
        Ok (Some (mkUserinfo userinfo "" false), host)
      else
        let '(username, password) := split userinfo ":" true in
        let* username := unescape username encodeUserPassword in
        let* password := unescape password encodeUserPassword in
        Ok (Some (mkUserinfo username password true), host)
  end.

(** [parse(rawURL, viaRequest)] *)
Definition parse (rawURL : string) (viaRequest : bool) : result parse_error URL :=
  if stringContainsCTLByte rawURL
  then Err (errorString "net/url: invalid control character in URL")
  else if String.eqb rawURL "" && viaRequest
  then Err (errorString "empty url")
  else if String.eqb rawURL "*"
  then Ok (mkURL "" "" None "" "*" false "" "")
  else
    let* (scheme, rest) := getScheme rawURL in
    let scheme := strings.ToLower scheme in
    let '(rest, forceQuery, rawQuery) :=
      if strings.HasSuffix rest "?" && Nat.eqb (strings.CountByte rest "?") 1
      then (take (String.length rest - 1) rest, true, "")
      else let '(rest, query) := split rest "?" true in (rest, false, query) in
    let colon := strings.IndexByte rest ":" in
    let slash := strings.IndexByte rest "/" in
    if negb (strings.HasPrefix rest "/") && negb (String.eqb scheme "")
    then Ok (mkURL scheme rest None "" "" forceQuery rawQuery "")
    else if negb (strings.HasPrefix rest "/") && viaRequest
    then Err (errorString "invalid URI for request")
    else if negb (strings.HasPrefix rest "/")
            && match colon, slash with
               | Some c, None => true
               | Some c, Some sl => Nat.ltb c sl
               | None, _ => false
               end
    then Err (errorString "first path segment in URL cannot contain colon")
    else
      let* (user, host, rest) :=
        if (negb (String.eqb scheme "")
            || negb viaRequest && negb (strings.HasPrefix rest "///"))
           && strings.HasPrefix rest "//"
        then
          let '(authority, rest) := split (drop 2 rest) "/" false in
          let* (user, host) := parseAuthority authority in
          Ok (user, host, rest)
        else Ok (None, "", rest) in
      (* url.setPath(rest) *)
      let* path := unescape rest encodePath in
      Ok (mkURL scheme "" user host path forceQuery rawQuery "").

(** The method [setFragment(f)] of [URL] *)
Definition setFragment (u : URL) (f : string) : result parse_error URL :=
  let* frag := unescape f encodeFragment in
  Ok (mkURL (Scheme u) (Opaque u) (User u) (Host u) (Path u)
            (ForceQuery u) (RawQuery u) frag).

(** [url.Parse(rawURL)] *)
Definition Parse (rawURL : string) : result Error URL :=
  let '(u, frag) := split rawURL "#" true in
  match parse u false with
  | Err err => Err (mkError "parse" u err)
  | Ok url =>
      if String.eqb frag "" then Ok url
      else match setFragment url frag with
           | Err err => Err (mkError "parse" rawURL err)
           | Ok url => Ok url
           end
  end.

End url.

(** ** Package [router] *)

Module router.

(** *** Values *)

(** [error] values that a panic carries: the three of index.go, the
    error of [url.Parse], and the run-time error of a call through a
    [nil] function or interface value. *)
Inductive error : Type :=
| ErrMethodNotAllowed    (* errors.New("method is not allowed for this router") *)
| ErrBadPath             (* errors.New("every path definition must conform to [Method]:[Url]") *)
| ErrNilHandler          (* errors.New("nill handler provided") *)
| UrlError (e : url.Error)
| RuntimeError (msg : string).

(** The operand of [panic]: an [error] or a plain string. *)
Inductive panic_value : Type :=
| PanicError (e : error)
| PanicString (s : string).

(** The fields of [http.Request] that the router reads. *)
Record Request : Type := mkRequest {
  Method : string;
  URL : url.URL
}.

(** Function values of type [func(http.ResponseWriter, *http.Request)]:
    [nil], or a function, named by a number, of which the model keeps
    how a call ends on each request: it returns ([None]) or it panics
    with a value.  What a handler writes to its [http.ResponseWriter] is
    outside the program state. *)
Inductive HandlerFn : Type :=
| nil_func
| func_of (id : nat) (ends : Request -> option panic_value).

(** Values of the interface [http.Handler]: [nil], [http.HandlerFunc(f)],
    the result of [http.NotFoundHandler()], or any other implementation,
    named by a number and kept with the way its [ServeHTTP] ends. *)
Inductive Handler : Type :=
| nil_handler
| HandlerFunc (f : HandlerFn)
| NotFoundHandler
| handler_of (id : nat) (ends : Request -> option panic_value).

(** A function, and a handler, whose calls all return. *)
Definition func (id : nat) : HandlerFn := func_of id (fun _ => None).

Definition other_handler (id : nat) : Handler := handler_of id (fun _ => None).

Definition is_nil (h : Handler) : bool :=
  match h with nil_handler => true | _ => false end.

Definition is_nil_func (f : HandlerFn) : bool :=
  match f with nil_func => true | _ => false end.

(** route.go: [type Route struct] *)
Record Route : Type := mkRoute {
  method : string;
  host : string;
  path : string;
  handler : Handler
}.

(** router.go: [type Router struct]; [mu] is [true] while the mutex is
    held. *)
Record Router : Type := mkRouter {
  mu : bool;
  routes : list Route
}.

(** *** Program states and the monad of the package's functions

    A state holds the router a method is called on, what [fmt.Println]
    has written (the routes printed, in order) and the calls made to
    handlers' [ServeHTTP]. *)
Record World : Type := mkWorld {
  rtr : Router;
  stdout : list Route;
  served : list (Handler * Request)
}.

Inductive Outcome (A : Type) : Type :=
| Returned (a : A)
| Panicked (v : panic_value)
| Blocked.                (* waiting for a mutex that is never released *)

Arguments Returned {A} a.
Arguments Panicked {A} v.
Arguments Blocked {A}.

Definition M (A : Type) : Type := World -> Outcome A * World.

Definition ret {A} (a : A) : M A := fun w => (Returned a, w).

Definition bind {A B} (m : M A) (k : A -> M B) : M B :=
  fun w =>
    match m w with
    | (Returned a, w') => k a w'
    | (Panicked v, w') => (Panicked v, w')
    | (Blocked, w') => (Blocked, w')
    end.

Definition panic {A} (v : panic_value) : M A := fun w => (Panicked v, w).

(** [defer cleanup(); body]: [cleanup] runs when [body] returns and when
    it panics. *)
Definition defer {A} (cleanup : M unit) (body : M A) : M A :=
  fun w =>
    match body w with
    | (Blocked, w') => (Blocked, w')
    | (o, w') =>
        match cleanup w' with
        | (Returned _, w'') => (o, w'')
        | (Panicked v, w'') => (Panicked v, w'')
        | (Blocked, w'') => (Blocked, w'')
        end
    end.

Notation "x <- m ;; k" := (bind m (fun x => k))
  (at level 61, m at next level, right associativity).
Notation "' pat <- m ;; k" := (bind m (fun x => match x with pat => k end))
  (at level 61, pat pattern, m at next level, right associativity).
Notation "m ;; k" := (bind m (fun _ => k))
  (at level 61, right associativity).

Definition get_routes : M (list Route) := fun w => (Returned (routes (rtr w)), w).

Definition set_routes (rs : list Route) : M unit :=
  fun w => (Returned tt, mkWorld (mkRouter (mu (rtr w)) rs) (stdout w) (served w)).

Definition set_mu (b : bool) : M unit :=
  fun w => (Returned tt, mkWorld (mkRouter b (routes (rtr w))) (stdout w) (served w)).

(** [r.mu.Lock()] *)
Definition Lock : M unit :=
  fun w => if mu (rtr w) then (Blocked, w) else set_mu true w.

(** [r.mu.Unlock()] *)
Definition Unlock : M unit :=
  fun w =>
    if mu (rtr w) then set_mu false w
    else (Panicked (PanicString "sync: unlock of unlocked mutex"), w).

(** [fmt.Println(route)] *)
Definition Println (route : Route) : M unit :=
  fun w => (Returned tt, mkWorld (rtr w) (stdout w ++ [route]) (served w)).

(** How the call [handler.ServeHTTP(rw, rr)] ends.  A [nil] interface
    value and [http.HandlerFunc(nil)], whose [ServeHTTP] calls the [nil]
    function, panic with the run-time error of a nil dereference; the
    not-found handler writes its reply and returns; any other handler
    ends as its own code does. *)
Definition nil_dereference : panic_value :=
  PanicError (RuntimeError "invalid memory address or nil pointer dereference").

Definition ends_as (e : option panic_value) : Outcome unit :=
  match e with
  | None => Returned tt
  | Some v => Panicked v
  end.

Definition handler_outcome (h : Handler) (rr : Request) : Outcome unit :=
  match h with
  | nil_handler => Panicked nil_dereference
  | HandlerFunc nil_func => Panicked nil_dereference
  | HandlerFunc (func_of _ ends) => ends_as (ends rr)
  | NotFoundHandler => Returned tt
  | handler_of _ ends => ends_as (ends rr)
  end.

(** [handler.ServeHTTP(rw, rr)] on a handler that is not the router:
    the call is recorded, and ends as the handler does. *)
Definition call_ServeHTTP (h : Handler) (rr : Request) : M unit :=
  fun w =>
    (handler_outcome h rr,
     mkWorld (rtr w) (stdout w) (served w ++ [(h, rr)])).

(** *** index.go *)

Definition isValidMethod (method : string) : bool :=
  existsb (fun m => strings.EqualFold m method)
          ["GET"; "POST"; "PUT"; "DELETE"; "HEAD"; "OPTIONS"].

Definition tokenize (path : string) : M (string * string * string) :=
  let paths := strings.Split path ":" in
  if negb (Nat.eqb (List.length paths) 2) then panic (PanicError ErrBadPath)
  else
    let pathMethod := nth 0 paths "" in
    if negb (isValidMethod pathMethod) then panic (PanicError ErrMethodNotAllowed)
    else
      let pathUrl := nth 1 paths "" in
      let pathUrl := strings.TrimPrefix pathUrl "/" in
      let pathUrl := strings.TrimSuffix pathUrl "/" in
      let pathUrl := if String.eqb pathUrl "" then "/" else pathUrl in
      match url.Parse pathUrl with
      | Err err => panic (PanicError (UrlError err))
      | Ok u => ret (pathMethod, url.Host u, url.Path u)
      end.

Definition New : Router := mkRouter false [].

(** *** router.go *)

Definition Handle (path : string) (handler : Handler) : M unit :=
  Lock ;;
  defer Unlock
    (if is_nil handler then panic (PanicError ErrNilHandler)
     else
       '(method, host, path) <- tokenize path ;;
       rs <- get_routes ;;
       set_routes (rs ++ [mkRoute method host path handler])).

Definition HandleFunc (path : string) (handler : HandlerFn) : M unit :=
  if is_nil_func handler then panic (PanicString "router: nill handler provided")
  else Handle path (HandlerFunc handler).

(** The [for _, route := range r.routes] loop of [match]; its result
    is the final value of the variable [handler], [nil] when the loop
    runs to the end. *)
Fixpoint match_loop (rs : list Route) (method_ host_ path_ : string) : M Handler :=
  match rs with
  | [] => ret nil_handler
  | route :: rs' =>
      Println route ;;
      if String.eqb (method route) method_
         && String.eqb (host route) host_
         && String.eqb (path route) path_
      then ret (handler route)
      else match_loop rs' method_ host_ path_
  end.

Definition match_ (rr : Request) : M Handler :=
  '(method, host, path) <- tokenize (Method rr ++ ":" ++ url.Path (URL rr)) ;;
  rs <- get_routes ;;
  handler <- match_loop rs method host path ;;
  if is_nil handler then ret NotFoundHandler else ret handler.

Definition ServeHTTP (rr : Request) : M unit :=
  handler <- match_ rr ;;
  call_ServeHTTP handler rr.

End router.

(** ** Vocabulary of the properties *)

Import router.

(** The path-spec [m:u]. *)
Definition path_spec (m u : string) : string := (m ++ String ":" u)%string.

Definition no_colon (s : string) : Prop := strings.CountByte s ":" = 0.

(** Lines 35-41 of index.go: the URL part with one leading and one
    trailing slash removed, and what is handed to [url.Parse]. *)
Definition strip_slashes (u : string) : string :=
  strings.TrimSuffix (strings.TrimPrefix u "/") "/".

Definition parsed_url (u : string) : string :=
  if String.eqb (strip_slashes u) "" then "/" else strip_slashes u.

(** A fresh program state around the router returned by [New()]. *)
Definition initial : World := mkWorld New [] [].

(** A request with the given method and URL path. *)
Definition request (m p : string) : Request :=
  mkRequest m (url.mkURL "" "" None "" p false "" "").

(** The (method, host, path) triple of a route. *)
Definition triple (r : Route) : string * string * string :=
  (method r, host r, path r).

(** The test of the loop of [match]. *)
Definition matches (r : Route) (m h p : string) : bool :=
  String.eqb (method r) m && String.eqb (host r) h && String.eqb (path r) p.

(** The state after [fmt.Println] has printed the routes [rs]. *)
Definition printed (rs : list Route) (w : World) : World :=
  mkWorld (rtr w) (stdout w ++ rs) (served w).

(** The state after the handler [h] has been called with [rr]. *)
Definition called (h : Handler) (rr : Request) (w : World) : World :=
  mkWorld (rtr w) (stdout w) (served w ++ [(h, rr)]).

(** What [match] tokenizes for a request. *)
Definition request_spec (rr : Request) : string :=
  (Method rr ++ ":" ++ url.Path (URL rr))%string.

(** Bytes that mean nothing special to [url.Parse] in a path: anything
    but the delimiters [#], [?], [%], [:] and the control bytes. *)
Definition plain_byte (c : byte) : bool :=
  negb (one_of "#?%:" c) && negb ((code c <? 32)%N || (code c =? 127)%N).

Fixpoint plain (s : string) : bool :=
  match s with
  | EmptyString => true
  | String c s' => plain_byte c && plain s'
  end.

(** A URL part that is a plain relative path once its outer slashes are
    removed: no delimiter, no further slash at either end. *)
Definition clean_url (u : string) : bool :=
  plain (strip_slashes u)
  && negb (strings.HasPrefix (strip_slashes u) "/")
  && negb (strings.HasSuffix (strip_slashes u) "/").

(** What holds of the paths that such URL parts leave in the registry. *)
Definition path_normalized (r : Route) : Prop :=
  path r <> ""
  /\ (strings.HasSuffix (path r) "/" = true -> path r = "/")
  /\ (strings.HasPrefix (path r) "/" = true -> path r = "/").

(** The program states reached from a new router by calls of [Handle],
    [HandleFunc] and [ServeHTTP], however they end, the path-specs
    registered having clean URL parts. *)
Inductive reachable : World -> Prop :=
| reach_New : reachable initial
| reach_Handle (w w' : World) (m u : string) (h : Handler) (o : Outcome unit) :
    reachable w -> clean_url u = true ->
    Handle (path_spec m u) h w = (o, w') -> reachable w'
| reach_HandleFunc (w w' : World) (m u : string) (f : HandlerFn) (o : Outcome unit) :
    reachable w -> clean_url u = true ->
    HandleFunc (path_spec m u) f w = (o, w') -> reachable w'
| reach_ServeHTTP (w w' : World) (rr : Request) (o : Outcome unit) :
    reachable w -> ServeHTTP rr w = (o, w') -> reachable w'.

(** The verbs of the allow-list. *)
Definition allowed_methods : list string :=
  ["GET"; "POST"; "PUT"; "DELETE"; "HEAD"; "OPTIONS"].

(** The upper-case form of an ASCII code. *)
Definition upper_code (c : N) : N :=
  if (97 <=? c)%N && (c <=? 122)%N then (c - 32)%N else c.

(** The UTF-8 encodings of U+017F (long s) and U+212A (Kelvin sign), the
    two code points outside ASCII that simple case folding puts with an
    ASCII letter (with S and with K). *)
Definition long_s : string := String "197" (String "191" "").
Definition kelvin_sign : string := String "226" (String "132" (String "170" "")).

(** Case-insensitive match of [m], read as UTF-8, against the ASCII
    word [v]: rune by rune, [m] has the letter of [v] in upper or lower
    case (for S and K also as long s or Kelvin sign), and any other
    byte of [v] as it is. *)
Fixpoint case_insensitive_match (v m : string) {struct v} : bool :=
  match v, m with
  | EmptyString, _ => String.eqb m ""
  | String _ _, EmptyString => false
  | String c v', String d m' =>
      if (code d <? 128)%N
      then (upper_code (code d) =? upper_code (code c))%N
           && case_insensitive_match v' m'
      else if (upper_code (code c) =? 83)%N && strings.HasPrefix m long_s
      then case_insensitive_match v' (drop 2 m)
      else if (upper_code (code c) =? 75)%N && strings.HasPrefix m kelvin_sign
      then case_insensitive_match v' (drop 3 m)
      else false
  end.

Fixpoint ascii_only (s : string) : bool :=
  match s with
  | EmptyString => true
  | String c s' => (code c <? 128)%N && ascii_only s'
  end.

(** The program state with the mutex set to [b], and with the route [r]
    appended. *)
Definition with_mu (b : bool) (w : World) : World :=
  mkWorld (mkRouter b (routes (rtr w))) (stdout w) (served w).

Definition with_route (r : Route) (w : World) : World :=
  mkWorld (mkRouter (mu (rtr w)) (routes (rtr w) ++ [r])) (stdout w) (served w).

(** [Handle] stores handlers that are not [nil] only. *)
Definition handlers_set (w : World) : Prop :=
  Forall (fun r => handler r <> nil_handler) (routes (rtr w)).

(** [setupRouter] of main.go. *)
Definition main_routes : M unit :=
  HandleFunc "GET:/" (func 0) ;;
  HandleFunc "GET:/path-one" (func 1) ;;
  HandleFunc "GET:/path-one/path-two" (func 2).

(** The handler [match] returns when its loop has stopped at the route
    [o] ([None]: the loop ran to the end). *)
Definition found_handler (o : option Route) : Handler :=
  match o with
  | Some r => if is_nil (handler r) then NotFoundHandler else handler r
  | None => NotFoundHandler
  end.

(** The routes the loop of [match] goes through: those up to and
    including the first one with the triple looked for. *)
Fixpoint scanned (rs : list Route) (m h p : string) : list Route :=
  match rs with
  | [] => []
  | r :: rs' => r :: (if matches r m h p then [] else scanned rs' m h p)
  end.

(** The program states reached from a new router by any calls of
    [Handle], [HandleFunc] and [ServeHTTP], however they end. *)
Inductive reached : World -> Prop :=
| reached_New : reached initial
| reached_Handle (w w' : World) (path : string) (h : Handler) (o : Outcome unit) :
    reached w -> Handle path h w = (o, w') -> reached w'
| reached_HandleFunc (w w' : World) (path : string) (f : HandlerFn) (o : Outcome unit) :
    reached w -> HandleFunc path f w = (o, w') -> reached w'
| reached_ServeHTTP (w w' : World) (rr : Request) (o : Outcome unit) :
    reached w -> ServeHTTP rr w = (o, w') -> reached w'.

(** What [Handle] guarantees of a stored route. *)
Definition route_sound (r : Route) : Prop :=
  isValidMethod (method r) = true /\ handler r <> nil_handler.

(** Words made of the letters A to Z. *)
Fixpoint upper_word (s : string) : bool :=
  match s with
  | EmptyString => true
  | String c s' => is_upper c && upper_word s'
  end.

(** * Properties *)

(** ** Strings *)

Lemma Split_nonempty (s : string) (sep : byte) : strings.Split s sep <> [].
Proof.
  induction s as [|c s IH]; simpl; [discriminate|].
  destruct (Ascii.eqb c sep); [discriminate|].
  destruct (strings.Split s sep); [contradiction|discriminate].
Qed.

(** [Split] yields one segment more than there are separators. *)
Lemma Split_length (s : string) (sep : byte) :
  List.length (strings.Split s sep) = S (strings.CountByte s sep).
Proof.
  induction s as [|c s IH]; simpl; [reflexivity|].
  destruct (Ascii.eqb c sep); simpl; [now rewrite IH|].
  destruct (strings.Split s sep) eqn:E; simpl in *; [discriminate|exact IH].
Qed.

Lemma Split_no_sep (s : string) (sep : byte) :
  strings.CountByte s sep = 0 -> strings.Split s sep = [s].
Proof.
  induction s as [|c s IH]; simpl; [reflexivity|].
  destruct (Ascii.eqb c sep); [discriminate|].
  intros H. now rewrite (IH H).
Qed.

(** A string [m:u] with no other separator splits into [m] and [u]. *)
Lemma Split_pair (m u : string) (sep : byte) :
  strings.CountByte m sep = 0 -> strings.CountByte u sep = 0 ->
  strings.Split (m ++ String sep u) sep = [m; u].
Proof.
  intros Hm Hu. induction m as [|c m IH]; simpl.
  - rewrite Ascii.eqb_refl, (Split_no_sep u sep Hu). reflexivity.
  - simpl in Hm. destruct (Ascii.eqb c sep); [discriminate|].
    now rewrite (IH Hm).
Qed.

(** Conversely, two segments come from exactly such a string. *)
Lemma Split_two_inv (s : string) (sep : byte) (m u : string) :
  strings.Split s sep = [m; u] ->
  s = (m ++ String sep u)%string
  /\ strings.CountByte m sep = 0 /\ strings.CountByte u sep = 0.
Proof.
  revert m. induction s as [|c s IH]; simpl; intros m H; [discriminate|].
  destruct (Ascii.eqb_spec c sep) as [->|Hc].
  - injection H as <- Hs. 
    assert (L := Split_length s sep). rewrite Hs in L. simpl in L.
    injection L as L. 
    rewrite (Split_no_sep s sep (eq_sym L)) in Hs. injection Hs as ->.
    simpl. auto.
  - destruct (strings.Split s sep) as [|seg segs] eqn:E; [discriminate|].
    injection H as <- ->.
    destruct (IH seg eq_refl) as (-> & Hm & Hu).
    simpl. destruct (Ascii.eqb_spec c sep); [contradiction|]. auto.
Qed.

Lemma CountByte_app (a b : string) (c : byte) :
  strings.CountByte (a ++ b) c = strings.CountByte a c + strings.CountByte b c.
Proof.
  induction a as [|d a IH]; simpl; [reflexivity|]. rewrite IH. lia.
Qed.

(** ** UTF-8 decoding and case folding *)

(** Division and remainder by constants, for [lia]. *)
Ltac Zify.zify_post_hook ::= Z.to_euclidean_division_equations.

(** Bit fields that do not overlap add up. *)
Lemma lor_disjoint (a b n : N) :
  (a mod 2 ^ n = 0)%N -> (b < 2 ^ n)%N -> N.lor a b = (a + b)%N.
Proof.
  intros Ha Hb.
  assert (L : N.land a b = 0%N).
  { apply N.bits_inj. intros i. rewrite N.land_spec, N.bits_0.
    destruct (N.lt_ge_cases i n) as [Hi|Hi].
    - rewrite <- (N.mod_pow2_bits_low a n i Hi), Ha, N.bits_0. reflexivity.
    - destruct (N.eq_dec b 0) as [->|Hb0]; [now rewrite N.bits_0, andb_false_r|].
      rewrite (N.bits_above_log2 b i), andb_false_r; [reflexivity|].
      apply N.lt_le_trans with n; [|exact Hi].
      apply N.log2_lt_pow2; lia. }
  rewrite <- N.lxor_lor by exact L. symmetry. now apply N.add_nocarry_lxor.
Qed.

Lemma rune2 (a b : N) :
  N.lor (N.shiftl (N.land a utf8.mask2) 6) (N.land b utf8.maskx)
  = ((a mod 32) * 64 + b mod 64)%N.
Proof.
  change utf8.mask2 with (N.ones 5). change utf8.maskx with (N.ones 6).
  rewrite !N.land_ones, N.shiftl_mul_pow2.
  change (2 ^ 5)%N with 32%N. change (2 ^ 6)%N with 64%N.
  apply (lor_disjoint _ _ 6); change (2 ^ 6)%N with 64%N; lia.
Qed.

Lemma rune3 (a b c : N) :
  N.lor (N.lor (N.shiftl (N.land a utf8.mask3) 12) (N.shiftl (N.land b utf8.maskx) 6))
        (N.land c utf8.maskx)
  = ((a mod 16) * 4096 + (b mod 64) * 64 + c mod 64)%N.
Proof.
  change utf8.mask3 with (N.ones 4). change utf8.maskx with (N.ones 6).
  rewrite !N.land_ones, !N.shiftl_mul_pow2.
  change (2 ^ 4)%N with 16%N. change (2 ^ 6)%N with 64%N.
  change (2 ^ 12)%N with 4096%N.
  rewrite (lor_disjoint (a mod 16 * 4096) (b mod 64 * 64) 12)
    by (change (2 ^ 12)%N with 4096%N; lia).
  apply (lor_disjoint _ _ 6); change (2 ^ 6)%N with 64%N; lia.
Qed.

Lemma rune4 (a b c d : N) :
  N.lor (N.lor (N.lor (N.shiftl (N.land a utf8.mask4) 18)
                      (N.shiftl (N.land b utf8.maskx) 12))
               (N.shiftl (N.land c utf8.maskx) 6))
        (N.land d utf8.maskx)
  = ((a mod 8) * 262144 + (b mod 64) * 4096 + (c mod 64) * 64 + d mod 64)%N.
Proof.
  change utf8.mask4 with (N.ones 3). change utf8.maskx with (N.ones 6).
  rewrite !N.land_ones, !N.shiftl_mul_pow2.
  change (2 ^ 3)%N with 8%N. change (2 ^ 6)%N with 64%N.
  change (2 ^ 12)%N with 4096%N. change (2 ^ 18)%N with 262144%N.
  rewrite (lor_disjoint (a mod 8 * 262144) (b mod 64 * 4096) 18)
    by (change (2 ^ 18)%N with 262144%N; lia).
  rewrite (lor_disjoint (a mod 8 * 262144 + b mod 64 * 4096) (c mod 64 * 64) 12)
    by (change (2 ^ 12)%N with 4096%N; lia).
  apply (lor_disjoint _ _ 6); change (2 ^ 6)%N with 64%N; lia.
Qed.

Lemma first_cases (b : N) :
  (128 <= b < 256)%N ->
  utf8.first b = 241%N
  \/ ((194 <= b < 224)%N /\ utf8.first b = 2%N)
  \/ (b = 224%N /\ utf8.first b = 19%N)
  \/ ((225 <= b < 240)%N /\ b <> 237%N /\ utf8.first b = 3%N)
  \/ (b = 237%N /\ utf8.first b = 35%N)
  \/ (b = 240%N /\ utf8.first b = 52%N)
  \/ ((241 <= b < 244)%N /\ utf8.first b = 4%N)
  \/ (b = 244%N /\ utf8.first b = 68%N).
Proof.
  intros Hb. unfold utf8.first.
  repeat match goal with
  | |- context [if (?a <? ?b)%N then _ else _] => destruct (N.ltb_spec a b)
  | |- context [if (?a =? ?b)%N then _ else _] => destruct (N.eqb_spec a b)
  end; try lia; tauto || (repeat (first [left; lia | left; split; [lia|reflexivity] | left; repeat split; try lia; reflexivity | right])).
Qed.

Lemma decode_view (s : string) :
  (128 <= utf8.at_ s 0 < 256)%N ->
  (1 <= String.length s)%nat ->
  utf8.DecodeRuneInString s = (utf8.RuneError, 1)
  \/ ((194 <= utf8.at_ s 0 < 224)%N /\ (128 <= utf8.at_ s 1 <= 191)%N
      /\ utf8.DecodeRuneInString s
         = (((utf8.at_ s 0 mod 32) * 64 + utf8.at_ s 1 mod 64)%N, 2))
  \/ ((224 <= utf8.at_ s 0 < 240)%N /\ (128 <= utf8.at_ s 1 <= 191)%N
      /\ (utf8.at_ s 0 = 224 -> 160 <= utf8.at_ s 1)%N
      /\ (128 <= utf8.at_ s 2 <= 191)%N
      /\ utf8.DecodeRuneInString s
         = (((utf8.at_ s 0 mod 16) * 4096 + (utf8.at_ s 1 mod 64) * 64
             + utf8.at_ s 2 mod 64)%N, 3))
  \/ ((240 <= utf8.at_ s 0 < 245)%N /\ (128 <= utf8.at_ s 1 <= 191)%N
      /\ (utf8.at_ s 0 = 240 -> 144 <= utf8.at_ s 1)%N
      /\ utf8.DecodeRuneInString s
         = (((utf8.at_ s 0 mod 8) * 262144 + (utf8.at_ s 1 mod 64) * 4096
             + (utf8.at_ s 2 mod 64) * 64 + utf8.at_ s 3 mod 64)%N, 4)).
Proof.
  intros H0 Hn. unfold utf8.DecodeRuneInString.
  destruct (Nat.ltb_spec (String.length s) 1) as [?|_]; [lia|].
  rewrite rune2, rune3, rune4.
  destruct (first_cases _ H0) as [E|[[R E]|[[R E]|[(R & R' & E)|[[R E]|[[R E]|[[R E]|[R E]]]]]]]];
    rewrite E; cbn -[N.modulo N.mul N.add Nat.ltb Nat.leb N.ltb];
    unfold utf8.locb, utf8.hicb;
    repeat match goal with
    | |- context [if Nat.ltb ?a ?b then _ else _] => destruct (Nat.ltb a b)
    | |- context [if (?a <? ?b)%N || (?c <? ?d)%N then _ else _] =>
        destruct (N.ltb_spec a b); destruct (N.ltb_spec c d); cbn [orb]
    end;
    try (left; reflexivity).
  all: right.
  all: try (left; repeat split; (lia || reflexivity)).
  all: right.
  all: try (left; repeat split; (lia || reflexivity)).
  all: right; repeat split; (lia || reflexivity).
Qed.

Lemma SimpleFold_upper (r : N) :
  (65 <= r <= 90)%N -> unicode.SimpleFold r = (r + 32)%N.
Proof.
  intros H. unfold unicode.SimpleFold, unicode.asciiFold.
  destruct (N.ltb_spec r 128); [|lia].
  destruct (N.leb_spec 65 r); [|lia]. destruct (N.leb_spec r 90); [|lia].
  reflexivity.
Qed.

Lemma SimpleFold_lower (r : N) :
  (97 <= r <= 122)%N -> r <> 107%N -> r <> 115%N ->
  unicode.SimpleFold r = (r - 32)%N.
Proof.
  intros H Hk Hs. unfold unicode.SimpleFold, unicode.asciiFold.
  destruct (N.ltb_spec r 128); [|lia].
  destruct (N.leb_spec 65 r); [|lia]. destruct (N.leb_spec r 90); [lia|].
  cbn [andb].
  destruct (N.eqb_spec r 107); [lia|]. destruct (N.eqb_spec r 115); [lia|].
  destruct (N.leb_spec 97 r); [|lia]. destruct (N.leb_spec r 122); [|lia].
  reflexivity.
Qed.

Lemma SimpleFold_other (r : N) :
  (r < 65 \/ 90 < r < 97 \/ 122 < r < 128)%N -> unicode.SimpleFold r = r.
Proof.
  intros H. unfold unicode.SimpleFold, unicode.asciiFold.
  destruct (N.ltb_spec r 128); [|lia].
  destruct (N.leb_spec 65 r); destruct (N.leb_spec r 90); cbn [andb]; try lia;
  destruct (N.eqb_spec r 107); try lia; destruct (N.eqb_spec r 115); try lia;
  destruct (N.leb_spec 97 r); destruct (N.leb_spec r 122); cbn [andb]; try lia;
  reflexivity.
Qed.

Lemma fold_up_go (n : nat) (sr tr r : N) :
  r <> sr -> (r < tr)%N ->
  strings.fold_up (S n) sr tr r = strings.fold_up n sr tr (unicode.SimpleFold r).
Proof.
  intros H1 H2. cbn [strings.fold_up].
  destruct (N.eqb_spec r sr); [contradiction|].
  destruct (N.ltb_spec r tr); [reflexivity|lia].
Qed.

Lemma fold_up_back (n : nat) (sr tr : N) : strings.fold_up (S n) sr tr sr = sr.
Proof. cbn [strings.fold_up]. now rewrite N.eqb_refl. Qed.

Lemma fold_up_reached (n : nat) (sr tr r : N) :
  (tr <= r)%N -> strings.fold_up (S n) sr tr r = r.
Proof.
  intros H. cbn [strings.fold_up].
  destruct (N.ltb_spec r tr); [lia|]. now rewrite andb_false_r.
Qed.

Lemma eqb_false (a b : N) : a <> b -> (a =? b)%N = false.
Proof. apply N.eqb_neq. Qed.

Lemma fold_up_ascii (sr tr : N) :
  (sr < 128)%N -> (128 <= tr)%N ->
  (strings.fold_up 4 sr tr (unicode.SimpleFold sr) =? tr)%N
  = ((upper_code sr =? 83)%N && (tr =? 383)%N)
    || ((upper_code sr =? 75)%N && (tr =? 8490)%N).
Proof.
  intros Hs Ht.
  assert (C : (65 <= sr <= 90 /\ sr <> 75 /\ sr <> 83)%N \/ sr = 75%N \/ sr = 83%N
              \/ (97 <= sr <= 122 /\ sr <> 107 /\ sr <> 115)%N \/ sr = 107%N \/ sr = 115%N
              \/ (sr < 65 \/ 90 < sr < 97 \/ 122 < sr < 128)%N) by lia.
  destruct C as [(C & Ck & Cs)|[->|[->|[(C & Ck & Cs)|[->|[->|C]]]]]].
  - rewrite SimpleFold_upper by lia.
    rewrite fold_up_go by lia.
    rewrite SimpleFold_lower by lia.
    replace (sr + 32 - 32)%N with sr by lia. rewrite fold_up_back.
    unfold upper_code. destruct (N.leb_spec 97 sr); [lia|]. cbn [andb].
    rewrite (eqb_false sr tr), (eqb_false sr 83), (eqb_false sr 75) by lia.
    reflexivity.
  - change (unicode.SimpleFold 75) with 107%N.
    rewrite fold_up_go by lia. change (unicode.SimpleFold 107) with 8490%N.
    change (upper_code 75) with 75%N. cbn [N.eqb Pos.eqb andb orb].
    destruct (N.lt_ge_cases 8490 tr).
    + rewrite fold_up_go by lia. change (unicode.SimpleFold 8490) with 75%N.
      rewrite fold_up_back, (eqb_false 75 tr), (eqb_false tr 8490) by lia.
      reflexivity.
    + rewrite fold_up_reached by lia. apply N.eqb_sym.
  - change (unicode.SimpleFold 83) with 115%N.
    rewrite fold_up_go by lia. change (unicode.SimpleFold 115) with 383%N.
    change (upper_code 83) with 83%N. cbn [N.eqb Pos.eqb andb orb].
    rewrite orb_false_r.
    destruct (N.lt_ge_cases 383 tr).
    + rewrite fold_up_go by lia. change (unicode.SimpleFold 383) with 83%N.
      rewrite fold_up_back, (eqb_false 83 tr), (eqb_false tr 383) by lia.
      reflexivity.
    + rewrite fold_up_reached by lia. apply N.eqb_sym.
  - rewrite SimpleFold_lower by lia.
    rewrite fold_up_go by lia.
    rewrite SimpleFold_upper by lia.
    replace (sr - 32 + 32)%N with sr by lia. rewrite fold_up_back.
    unfold upper_code. destruct (N.leb_spec 97 sr); [|lia].
    destruct (N.leb_spec sr 122); [|lia]. cbn [andb].
    rewrite (eqb_false sr tr), (eqb_false (sr - 32) 83), (eqb_false (sr - 32) 75) by lia.
    reflexivity.
  - change (unicode.SimpleFold 107) with 8490%N.
    change (upper_code 107) with 75%N. cbn [N.eqb Pos.eqb andb orb].
    destruct (N.lt_ge_cases 8490 tr).
    + rewrite fold_up_go by lia. change (unicode.SimpleFold 8490) with 75%N.
      rewrite fold_up_go by lia. change (unicode.SimpleFold 75) with 107%N.
      rewrite fold_up_back, (eqb_false 107 tr), (eqb_false tr 8490) by lia.
      reflexivity.
    + rewrite fold_up_reached by lia. apply N.eqb_sym.
  - change (unicode.SimpleFold 115) with 383%N.
    change (upper_code 115) with 83%N. cbn [N.eqb Pos.eqb andb orb].
    rewrite orb_false_r.
    destruct (N.lt_ge_cases 383 tr).
    + rewrite fold_up_go by lia. change (unicode.SimpleFold 383) with 83%N.
      rewrite fold_up_go by lia. change (unicode.SimpleFold 83) with 115%N.
      rewrite fold_up_back, (eqb_false 115 tr), (eqb_false tr 383) by lia.
      reflexivity.
    + rewrite fold_up_reached by lia. apply N.eqb_sym.
  - rewrite SimpleFold_other by lia. rewrite fold_up_back.
    unfold upper_code.
    destruct (N.leb_spec 97 sr); destruct (N.leb_spec sr 122); cbn [andb]; try lia;
      rewrite (eqb_false sr tr), (eqb_false sr 83), (eqb_false sr 75) by lia;
      reflexivity.
Qed.

Lemma code_bound (c : byte) : (code c < 256)%N.
Proof. apply N_ascii_bounded. Qed.

Lemma code_inj (c d : byte) : code c = code d -> c = d.
Proof.
  intros H. rewrite <- (ascii_N_embedding c), <- (ascii_N_embedding d).
  unfold code in H. now rewrite H.
Qed.

Lemma at_pos (s : string) (i : nat) :
  utf8.at_ s i <> 0%N -> exists c, String.get i s = Some c /\ utf8.at_ s i = code c.
Proof.
  unfold utf8.at_. destruct (String.get i s) as [c|]; [|congruence].
  intros _. now exists c.
Qed.

(** What [DecodeRuneInString] finds at a byte that is not ASCII. *)
Lemma decode_non_ascii (d : byte) (m : string) :
  (128 <= code d)%N ->
  let r := fst (utf8.DecodeRuneInString (String d m)) in
  let size := snd (utf8.DecodeRuneInString (String d m)) in
  (128 <= r)%N /\ 1 <= size
  /\ (r = 383%N -> strings.HasPrefix (String d m) long_s = true /\ size = 2)
  /\ (r = 8490%N -> strings.HasPrefix (String d m) kelvin_sign = true /\ size = 3).
Proof.
  intros Hd.
  assert (V := decode_view (String d m)).
  assert (B := code_bound d).
  change (utf8.at_ (String d m) 0) with (code d) in V.
  specialize (V (conj Hd B) ltac:(simpl; lia)).
  destruct V as [E|[(R0 & R1 & E)|[(R0 & R1 & R1' & R2 & E)|(R0 & R1 & R1' & E)]]];
    rewrite E; cbn [fst snd]; unfold utf8.RuneError.
  - repeat split; try lia; intros; discriminate.
  - split; [lia|]. split; [lia|]. split; [|intros; lia].
    intros Hr.
    destruct (at_pos (String d m) 1) as (e & Ge & Ce); [lia|].
    rewrite Ce in *. destruct m as [|e' m]; [discriminate|].
    simpl in Ge. injection Ge as ->.
    assert (d = "197"%char) as -> by (apply code_inj; change (code "197") with 197%N; lia).
    assert (e = "191"%char) as -> by (apply code_inj; change (code "191") with 191%N; lia).
    split; reflexivity.
  - split; [lia|]. split; [lia|]. split; [intros; lia|].
    intros Hr.
    destruct (at_pos (String d m) 1) as (e & Ge & Ce); [lia|].
    destruct (at_pos (String d m) 2) as (f & Gf & Cf); [lia|].
    rewrite Ce, Cf in *. destruct m as [|e' [|f' m]]; try discriminate.
    simpl in Ge, Gf. injection Ge as ->. injection Gf as ->.
    assert (d = "226"%char) as -> by (apply code_inj; change (code "226") with 226%N; lia).
    assert (e = "132"%char) as -> by (apply code_inj; change (code "132") with 132%N; lia).
    assert (f = "170"%char) as -> by (apply code_inj; change (code "170") with 170%N; lia).
    split; reflexivity.
  - repeat split; try lia.
Qed.

Lemma decode_long_s (m : string) :
  strings.HasPrefix m long_s = true -> utf8.DecodeRuneInString m = (383%N, 2).
Proof.
  destruct m as [|d [|e m]]; try discriminate.
  - simpl. rewrite andb_false_r. discriminate.
  - simpl. destruct (Ascii.eqb_spec d "197") as [->|]; [|discriminate].
    destruct (Ascii.eqb_spec e "191") as [->|]; [|discriminate].
    reflexivity.
Qed.

Lemma decode_kelvin_sign (m : string) :
  strings.HasPrefix m kelvin_sign = true -> utf8.DecodeRuneInString m = (8490%N, 3).
Proof.
  destruct m as [|d [|e [|f m]]]; try discriminate;
    simpl; rewrite ?andb_false_r; try discriminate.
  destruct (Ascii.eqb_spec d "226") as [->|]; [|discriminate].
  destruct (Ascii.eqb_spec e "132") as [->|]; [|discriminate].
  destruct (Ascii.eqb_spec f "170") as [->|]; [|discriminate].
  reflexivity.
Qed.

(** The test [EqualFold] makes on two different ASCII runes. *)
Lemma ascii_fold_test (a b : N) :
  (a < 128)%N -> (b < 128)%N -> a <> b ->
  (let '(lo, hi) := if (b <? a)%N then (b, a) else (a, b) in
   (65 <=? lo)%N && (lo <=? 90)%N && (hi =? lo + 32)%N)
  = (upper_code b =? upper_code a)%N.
Proof.
  intros Ha Hb Hab. unfold upper_code.
  destruct (N.ltb_spec b a);
    repeat match goal with
    | |- context [(?x <=? ?y)%N] => destruct (N.leb_spec x y); cbn [andb]
    end;
    repeat match goal with
    | |- context [(?x =? ?y)%N] => destruct (N.eqb_spec x y)
    end; try reflexivity; lia.
Qed.

Lemma EqualFold_loop_S (fuel : nat) (s t : string) :
  strings.EqualFold_loop (S fuel) s t =
  if String.eqb s "" || String.eqb t "" then Some (String.eqb s t)
  else
    let '(sr, s) := strings.next_rune s in
    let '(tr, t) := strings.next_rune t in
    if (tr =? sr)%N then strings.EqualFold_loop fuel s t
    else
      let '(sr, tr) := if (tr <? sr)%N then (tr, sr) else (sr, tr) in
      if (tr <? utf8.RuneSelf)%N then
        if (65 <=? sr)%N && (sr <=? 90)%N && (tr =? sr + 32)%N
        then strings.EqualFold_loop fuel s t
        else Some false
      else
        let r := strings.fold_up 4 sr tr (unicode.SimpleFold sr) in
        if (r =? tr)%N then strings.EqualFold_loop fuel s t else Some false.
Proof. reflexivity. Qed.

Lemma EqualFold_loop_ascii (v m : string) (fuel : nat) :
  ascii_only v = true -> String.length v <= fuel ->
  strings.EqualFold_loop fuel v m = Some (case_insensitive_match v m).
Proof.
  revert m fuel. induction v as [|c v IH]; intros m fuel Hv Hf.
  - destruct fuel; simpl; now rewrite String.eqb_sym.
  - destruct fuel as [|fuel]; [simpl in Hf; lia|].
    simpl in Hv, Hf. apply andb_true_iff in Hv. destruct Hv as [Hc Hv].
    assert (Hf' : String.length v <= fuel) by lia.
    rewrite EqualFold_loop_S.
    destruct m as [|d m]; [reflexivity|].
    cbn [String.eqb orb strings.next_rune case_insensitive_match].
    unfold utf8.RuneSelf. rewrite Hc.
    apply N.ltb_lt in Hc.
    destruct (N.ltb_spec (code d) 128) as [Hd|Hd].
    + destruct (N.eqb_spec (code d) (code c)) as [E|E].
      * rewrite E, N.eqb_refl. now apply IH.
      * assert (T := ascii_fold_test (code c) (code d) Hc Hd (not_eq_sym E)).
        destruct (code d <? code c)%N; rewrite <- T.
        -- destruct (N.ltb_spec (code c) 128); [|lia].
           destruct (_ && _); [now apply IH|reflexivity].
        -- destruct (N.ltb_spec (code d) 128); [|lia].
           destruct (_ && _); [now apply IH|reflexivity].
    + destruct (decode_non_ascii d m Hd) as (Hr & Hsz & Hs & Hk).
      destruct (utf8.DecodeRuneInString (String d m)) as [r size] eqn:D.
      cbn [fst snd] in *.
      destruct (N.eqb_spec r (code c)); [lia|].
      destruct (N.ltb_spec r (code c)); [lia|].
      destruct (N.ltb_spec r 128); [lia|].
      cbv zeta. rewrite (fold_up_ascii (code c) r Hc Hr).
      destruct (upper_code (code c) =? 83)%N eqn:U83; cbn [andb orb].
      * assert ((upper_code (code c) =? 75)%N = false) as ->
          by (apply N.eqb_eq in U83; rewrite U83; reflexivity).
        cbn [andb orb]. rewrite orb_false_r.
        destruct (N.eqb_spec r 383) as [->|R].
        -- destruct (Hs eq_refl) as [-> ->]. now apply IH.
        -- destruct (strings.HasPrefix (String d m) long_s) eqn:P; [|reflexivity].
           rewrite (decode_long_s _ P) in D. congruence.
      * destruct (upper_code (code c) =? 75)%N; cbn [andb]; [|reflexivity].
        destruct (N.eqb_spec r 8490) as [->|R].
        -- destruct (Hk eq_refl) as [-> ->]. now apply IH.
        -- destruct (strings.HasPrefix (String d m) kelvin_sign) eqn:P; [|reflexivity].
           rewrite (decode_kelvin_sign _ P) in D. congruence.
Qed.

Lemma length_drop (n : nat) (s : string) :
  String.length (drop n s) = String.length s - n.
Proof.
  revert s. induction n as [|n IH]; intros s; simpl; [lia|].
  destruct s; simpl; [reflexivity|apply IH].
Qed.

(** Every turn of the loop shortens [s]. *)
Lemma next_rune_shorter (c : byte) (s : string) :
  String.length (snd (strings.next_rune (String c s))) <= String.length s.
Proof.
  cbn [strings.next_rune]. unfold utf8.RuneSelf.
  destruct (N.ltb_spec (code c) 128) as [H|H]; [simpl; lia|].
  destruct (decode_non_ascii c s H) as (_ & Hsz & _).
  destruct (utf8.DecodeRuneInString (String c s)) as [r size].
  cbn [fst snd] in *. rewrite length_drop. cbn [String.length]. lia.
Qed.

(** The loop of [EqualFold] ends within [String.length s] turns. *)
Lemma EqualFold_loop_total (fuel : nat) (s t : string) :
  String.length s <= fuel -> strings.EqualFold_loop fuel s t <> None.
Proof.
  revert s t. induction fuel as [|fuel IH]; intros s t Hf.
  - destruct s; [discriminate|simpl in Hf; lia].
  - rewrite EqualFold_loop_S.
    destruct s as [|c s]; [discriminate|].
    destruct t as [|d t]; [discriminate|].
    cbn [String.eqb orb].
    assert (L := next_rune_shorter c s).
    destruct (strings.next_rune (String c s)) as [sr s1].
    destruct (strings.next_rune (String d t)) as [tr t1].
    cbn [snd] in L. simpl in Hf.
    assert (G : strings.EqualFold_loop fuel s1 t1 <> None) by (apply IH; lia).
    destruct (tr =? sr)%N; [exact G|].
    destruct (if (tr <? sr)%N then (tr, sr) else (sr, tr)) as [sr' tr'].
    destruct (tr' <? utf8.RuneSelf)%N.
    + destruct (_ && _); [exact G|discriminate].
    + cbv zeta. destruct (_ =? tr')%N; [exact G|discriminate].
Qed.

Lemma EqualFold_ascii (v m : string) :
  ascii_only v = true -> strings.EqualFold v m = case_insensitive_match v m.
Proof.
  intros Hv. unfold strings.EqualFold.
  now rewrite (EqualFold_loop_ascii v m _ Hv (le_n _)).
Qed.

Lemma upper_byte_code (d : byte) :
  (code (strings.upper_byte d) < 128)%N ->
  (code d < 128)%N
  /\ upper_code (code (strings.upper_byte d)) = upper_code (code d).
Proof.
  unfold strings.upper_byte, is_lower, byte_in.
  change (code "a") with 97%N. change (code "z") with 122%N.
  destruct (N.leb_spec 97 (code d)); destruct (N.leb_spec (code d) 122);
    cbn [andb]; auto.
  intros _. split; [lia|].
  unfold code at 1. rewrite N_ascii_embedding by lia.
  unfold upper_code.
  destruct (N.leb_spec 97 (code d - 32)); [lia|].
  destruct (N.leb_spec 97 (code d)); [|lia].
  destruct (N.leb_spec (code d) 122); [|lia].
  reflexivity.
Qed.

(** A word matches its own upper-case form. *)
Lemma match_ToUpper (m : string) :
  ascii_only (strings.ToUpper m) = true ->
  case_insensitive_match (strings.ToUpper m) m = true.
Proof.
  induction m as [|d m IH]; [reflexivity|].
  cbn [strings.ToUpper strings.map_bytes ascii_only case_insensitive_match].
  fold (strings.ToUpper m).
  intros H. apply andb_true_iff in H. destruct H as [Hd Hm].
  apply N.ltb_lt in Hd. destruct (upper_byte_code d Hd) as [Hd' E].
  destruct (N.ltb_spec (code d) 128); [|lia].
  rewrite E, N.eqb_refl. now apply IH.
Qed.

Ltac Zify.zify_post_hook ::= idtac.

(** ** The tokenizer *)

(** [tokenize] on a path-spec [m:u]: the three ways it ends. *)
Lemma tokenize_path_spec (m u : string) (w : World) :
  no_colon m -> no_colon u ->
  tokenize (path_spec m u) w =
    if negb (isValidMethod m) then (Panicked (PanicError ErrMethodNotAllowed), w)
    else match url.Parse (parsed_url u) with
         | Err err => (Panicked (PanicError (UrlError err)), w)
         | Ok x => (Returned (m, url.Host x, url.Path x), w)
         end.
Proof.
  intros Hm Hu. unfold tokenize, path_spec.
  rewrite (Split_pair m u ":" Hm Hu). simpl.
  destruct (isValidMethod m); simpl; [|reflexivity].
  unfold parsed_url, strip_slashes.
  destruct (url.Parse _); reflexivity.
Qed.

(** With any other number of separators [tokenize] panics at once. *)
Lemma tokenize_bad_path (s : string) (w : World) :
  strings.CountByte s ":" <> 1 ->
  tokenize s w = (Panicked (PanicError ErrBadPath), w).
Proof.
  intros H. unfold tokenize. rewrite Split_length.
  destruct (Nat.eqb_spec (S (strings.CountByte s ":")) 2) as [E|E]; [lia|].
  reflexivity.
Qed.

Lemma one_colon_path_spec (s : string) :
  strings.CountByte s ":" = 1 ->
  exists m u, s = path_spec m u /\ no_colon m /\ no_colon u.
Proof.
  intros H. assert (L := Split_length s ":"). rewrite H in L.
  destruct (strings.Split s ":") as [|m [|u [|? ?]]] eqn:E; try discriminate.
  exists m, u. apply Split_two_inv in E. exact E.
Qed.

Lemma path_spec_one_colon (m u : string) :
  no_colon m -> no_colon u -> strings.CountByte (path_spec m u) ":" = 1.
Proof.
  unfold no_colon, path_spec. intros Hm Hu.
  rewrite CountByte_app. simpl. lia.
Qed.

Lemma tokenize_returned_no_colon (m u : string) (w : World) (t : string * string * string) :
  fst (tokenize (path_spec m u) w) = Returned t -> no_colon m /\ no_colon u.
Proof.
  intros H.
  destruct (Nat.eq_dec (strings.CountByte (path_spec m u) ":") 1) as [E|E].
  - unfold path_spec in E. rewrite CountByte_app in E. simpl in E.
    unfold no_colon. lia.
  - rewrite (tokenize_bad_path _ w E) in H. discriminate.
Qed.

(** The state is never touched, whatever the input. *)
Lemma tokenize_state (s : string) (w : World) : snd (tokenize s w) = w.
Proof.
  destruct (Nat.eq_dec (strings.CountByte s ":") 1) as [E|E].
  - destruct (one_colon_path_spec s E) as (m & u & -> & Hm & Hu).
    rewrite (tokenize_path_spec m u w Hm Hu).
    destruct (negb (isValidMethod m)); [reflexivity|].
    destruct (url.Parse _); reflexivity.
  - now rewrite (tokenize_bad_path s w E).
Qed.

Lemma tokenize_outcome (s : string) (w1 w2 : World) :
  fst (tokenize s w1) = fst (tokenize s w2).
Proof.
  destruct (Nat.eq_dec (strings.CountByte s ":") 1) as [E|E].
  - destruct (one_colon_path_spec s E) as (m & u & -> & Hm & Hu).
    rewrite !(tokenize_path_spec m u _ Hm Hu).
    destruct (negb (isValidMethod m)); [reflexivity|].
    destruct (url.Parse _); reflexivity.
  - now rewrite !(tokenize_bad_path s _ E).
Qed.

Lemma tokenize_eq (s : string) (w : World) :
  tokenize s w = (fst (tokenize s initial), w).
Proof.
  rewrite (surjective_pairing (tokenize s w)).
  now rewrite tokenize_state, (tokenize_outcome s w initial).
Qed.

(** A call of [tokenize] never blocks. *)
Lemma tokenize_not_blocked (s : string) (w : World) :
  fst (tokenize s w) <> Blocked.
Proof.
  destruct (Nat.eq_dec (strings.CountByte s ":") 1) as [E|E].
  - destruct (one_colon_path_spec s E) as (m & u & -> & Hm & Hu).
    rewrite (tokenize_path_spec m u w Hm Hu).
    destruct (negb (isValidMethod m)); [discriminate|].
    destruct (url.Parse _); discriminate.
  - now rewrite (tokenize_bad_path s w E).
Qed.

(** C9. [tokenize] is deterministic and free of side effects: the
    outcome of a call (the triple it returns, or the panic it raises)
    depends on the input string alone, not on the program state the call
    is made in, and the call leaves that state as it found it. *)
Theorem tokenize_deterministic_pure (s : string) (w1 w2 : World) :
  fst (tokenize s w1) = fst (tokenize s w2)
  /\ snd (tokenize s w1) = w1
  /\ snd (tokenize s w2) = w2.
Proof.
  split; [apply tokenize_outcome|].
  split; apply tokenize_state.
Qed.

(** C6. [tokenize] fails with [ErrBadPath] exactly when the input does
    not hold exactly one [:] separator. *)
Theorem tokenize_BadPath_iff (s : string) (w : World) :
  fst (tokenize s w) = Panicked (PanicError ErrBadPath)
  <-> strings.CountByte s ":" <> 1.
Proof.
  split.
  - intros H E.
    destruct (one_colon_path_spec s E) as (m & u & -> & Hm & Hu).
    rewrite (tokenize_path_spec m u w Hm Hu) in H.
    destruct (negb (isValidMethod m)); [discriminate|].
    destruct (url.Parse _); discriminate.
  - intros E. now rewrite (tokenize_bad_path s w E).
Qed.

(** ** The allow-list *)

(** [isValidMethod] is the case-insensitive match against the six
    verbs. *)
Lemma isValidMethod_match (m : string) :
  isValidMethod m = existsb (fun v => case_insensitive_match v m) allowed_methods.
Proof.
  unfold isValidMethod, allowed_methods. cbn [existsb].
  now rewrite !EqualFold_ascii by reflexivity.
Qed.

Lemma isValidMethod_false (m : string) :
  isValidMethod m = false
  <-> (forall v, In v allowed_methods -> case_insensitive_match v m = false).
Proof.
  rewrite isValidMethod_match. split.
  - intros H v Hv. destruct (case_insensitive_match v m) eqn:E; [|reflexivity].
    rewrite <- H. symmetry. apply existsb_exists. now exists v.
  - intros H. destruct (existsb _ _) eqn:E; [|reflexivity].
    apply existsb_exists in E. destruct E as (v & Hv & E).
    now rewrite (H v Hv) in E.
Qed.

(** C7. On an input [m:u] with exactly one separator, [tokenize] fails
    with [ErrMethodNotAllowed] if and only if the method segment [m]
    matches, case-insensitively, none of GET, POST, PUT, DELETE, HEAD,
    OPTIONS; in particular every spelling of one of these verbs in
    upper and lower case letters is accepted. *)
Theorem MethodNotAllowed_iff (m u : string) (w : World) :
  no_colon m -> no_colon u ->
  (fst (tokenize (path_spec m u) w) = Panicked (PanicError ErrMethodNotAllowed)
   <-> (forall v, In v allowed_methods -> case_insensitive_match v m = false))
  /\ (In (strings.ToUpper m) allowed_methods ->
      fst (tokenize (path_spec m u) w) <> Panicked (PanicError ErrMethodNotAllowed)).
Proof.
  intros Hm Hu. rewrite (tokenize_path_spec m u w Hm Hu).
  assert (V : fst (if negb (isValidMethod m)
                   then (Panicked (PanicError ErrMethodNotAllowed), w)
                   else match url.Parse (parsed_url u) with
                        | Ok x => (Returned (m, url.Host x, url.Path x), w)
                        | Err err => (Panicked (PanicError (UrlError err)), w)
                        end)
              = Panicked (PanicError ErrMethodNotAllowed)
              <-> isValidMethod m = false).
  { destruct (isValidMethod m); cbn [negb]; [|tauto].
    destruct (url.Parse _); split; discriminate. }
  split.
  - rewrite V. apply isValidMethod_false.
  - intros Hin. rewrite V, isValidMethod_false. intros H.
    specialize (H _ Hin). rewrite match_ToUpper in H; [discriminate|].
    revert Hin. generalize (strings.ToUpper m). intros v Hv.
    repeat (destruct Hv as [<-|Hv]; [reflexivity|]). destruct Hv.
Qed.

Lemma MethodNotAllowed_iff_witness :
  no_colon "oPtIoNs" /\ no_colon "/x"
  /\ In (strings.ToUpper "oPtIoNs") allowed_methods
  /\ fst (tokenize (path_spec "oPtIoNs" "/x") initial)
     <> Panicked (PanicError ErrMethodNotAllowed).
Proof.
  split; [reflexivity|]. split; [reflexivity|].
  assert (I : In (strings.ToUpper "oPtIoNs") allowed_methods)
    by (cbn; do 5 right; left; reflexivity).
  split; [exact I|].
  exact (proj2 (MethodNotAllowed_iff "oPtIoNs" "/x" initial eq_refl eq_refl) I).
Defined.

(** ** [url.Parse] on plain paths *)

Lemma plain_inv (c : byte) (s : string) :
  plain (String c s) = true ->
  (c =? "#")%char = false /\ (c =? "?")%char = false /\ (c =? "%")%char = false
  /\ (c =? ":")%char = false
  /\ ((code c <? 32)%N || (code c =? 127)%N) = false
  /\ plain s = true.
Proof.
  simpl. unfold plain_byte. simpl.
  destruct (c =? "#")%char, (c =? "?")%char, (c =? "%")%char, (c =? ":")%char;
    simpl; try discriminate.
  destruct ((code c <? 32)%N || (code c =? 127)%N); simpl; try discriminate.
  auto 10.
Qed.

Lemma plain_IndexByte (s : string) (c : byte) :
  plain s = true -> one_of "#?%:" c = true -> strings.IndexByte s c = None.
Proof.
  intros Hs Hc. induction s as [|d s IH]; [reflexivity|].
  destruct (plain_inv d s Hs) as (H1 & H2 & H3 & H4 & _ & Hs').
  simpl. rewrite (IH Hs').
  destruct (Ascii.eqb_spec d c) as [->|]; [|reflexivity].
  simpl in Hc. rewrite H1, H2, H3, H4 in Hc. discriminate.
Qed.

Lemma plain_CountByte (s : string) (c : byte) :
  plain s = true -> one_of "#?%:" c = true -> strings.CountByte s c = 0.
Proof.
  intros Hs Hc. induction s as [|d s IH]; [reflexivity|].
  destruct (plain_inv d s Hs) as (H1 & H2 & H3 & H4 & _ & Hs').
  simpl. rewrite (IH Hs').
  destruct (Ascii.eqb_spec d c) as [->|]; [|reflexivity].
  simpl in Hc. rewrite H1, H2, H3, H4 in Hc. discriminate.
Qed.

Lemma plain_no_CTL (s : string) :
  plain s = true -> url.stringContainsCTLByte s = false.
Proof.
  induction s as [|d s IH]; [reflexivity|]. intros Hs.
  destruct (plain_inv d s Hs) as (_ & _ & _ & _ & H & Hs').
  simpl. rewrite H. auto.
Qed.

(** Without a colon there is no scheme. *)
Lemma getScheme_loop_no_colon (rawURL s : string) (i : nat) :
  strings.CountByte s ":" = 0 -> url.getScheme_loop rawURL i s = Ok ("", rawURL).
Proof.
  revert i. induction s as [|c s IH]; intros i H; [reflexivity|].
  simpl in *. destruct (c =? ":")%char; [discriminate|].
  destruct (is_lower c || is_upper c); [now apply IH|].
  destruct (is_digit c || _); [|reflexivity].
  destruct (Nat.eqb i 0); [reflexivity|now apply IH].
Qed.

(** Without [%] nothing is unescaped in a path. *)
Lemma unescape_path_plain (s : string) :
  plain s = true -> url.unescape s url.encodePath = Ok s.
Proof.
  intros Hs. unfold url.unescape.
  assert (H : url.unescape_check url.encodePath s = None
              /\ url.unescape_build url.encodePath s = s).
  { induction s as [|c s IH]; [split; reflexivity|].
    destruct (plain_inv c s Hs) as (_ & _ & H3 & _ & _ & Hs').
    destruct (IH Hs') as [IH1 IH2]. simpl. rewrite H3, IH1, IH2.
    destruct (Ascii.eqb_spec c "+") as [->|]; split; reflexivity. }
  destruct H as [-> ->]. reflexivity.
Qed.

(** A plain string that does not start with two slashes parses to a URL
    that has that string as its path and nothing else. *)
Lemma Parse_plain (p : string) :
  plain p = true -> strings.HasPrefix p "//" = false ->
  url.Parse p = Ok (url.mkURL "" "" None "" p false "" "").
Proof.
  intros Hp Hss. unfold url.Parse, url.split.
  rewrite (plain_IndexByte p "#" Hp eq_refl). cbn [String.eqb].
  unfold url.parse. rewrite (plain_no_CTL p Hp), andb_false_r.
  destruct (String.eqb_spec p "*") as [->|Hstar]; [reflexivity|].
  unfold url.getScheme.
  rewrite (getScheme_loop_no_colon p p 0 (plain_CountByte p ":" Hp eq_refl)).
  cbn [and_then strings.ToLower strings.map_bytes].
  rewrite (plain_CountByte p "?" Hp eq_refl). cbn [Nat.eqb].
  rewrite andb_false_r. unfold url.split.
  rewrite (plain_IndexByte p "?" Hp eq_refl), (plain_IndexByte p ":" Hp eq_refl).
  cbn [String.eqb negb].
  rewrite !andb_false_r, Hss, andb_false_r. cbn [and_then].
  rewrite (unescape_path_plain p Hp). reflexivity.
Qed.

(** ** Where [url.Parse] finds a host *)

Lemma HasPrefix_take (s p : string) (n : nat) :
  strings.HasPrefix (take n s) p = true -> strings.HasPrefix s p = true.
Proof.
  revert s n. induction p as [|c p IH]; intros s n; [reflexivity|].
  destruct n as [|n]; [discriminate|].
  destruct s as [|d s]; [discriminate|]. cbn [take strings.HasPrefix].
  intros H. apply andb_true_iff in H. destruct H as [-> H].
  now rewrite (IH s n H).
Qed.

Lemma CountByte_take (s : string) (c : byte) (n : nat) :
  strings.CountByte s c = 0 -> strings.CountByte (take n s) c = 0.
Proof.
  revert n. induction s as [|d s IH]; intros [|n]; try reflexivity.
  cbn [take strings.CountByte]. destruct (Ascii.eqb d c); [discriminate|].
  cbn [Nat.add]. apply IH.
Qed.

Lemma split_fst_take (s : string) (sep : byte) (cutc : bool) :
  exists n, fst (url.split s sep cutc) = take n s.
Proof.
  unfold url.split. destruct (strings.IndexByte s sep) as [i|].
  - exists i. destruct cutc; reflexivity.
  - exists (String.length s). cbn [fst].
    induction s as [|d s IH]; [reflexivity|]. cbn [String.length take]. now rewrite <- IH.
Qed.

(** Without a scheme, a URL has a host only if it starts with [//]. *)
Lemma parse_host_empty (u : string) (x : url.URL) :
  strings.CountByte u ":" = 0 ->
  strings.HasPrefix u "//" = false ->
  url.parse u false = Ok x -> url.Host x = "".
Proof.
  intros Hc Hp. unfold url.parse.
  destruct (url.stringContainsCTLByte u); [discriminate|].
  rewrite andb_false_r.
  destruct (String.eqb u "*"); [now intros [= <-]|].
  unfold url.getScheme. rewrite (getScheme_loop_no_colon u u 0 Hc).
  cbn [and_then strings.ToLower strings.map_bytes].
  assert (R : exists n,
    fst (fst (if strings.HasSuffix u "?" && Nat.eqb (strings.CountByte u "?") 1
              then (take (String.length u - 1) u, true, "")
              else let '(rest, query) := url.split u "?" true in (rest, false, query)))
    = take n u).
  { destruct (_ && _); [now eexists|].
    destruct (split_fst_take u "?" true) as [n Hn]. exists n.
    destruct (url.split u "?" true). exact Hn. }
  destruct (if strings.HasSuffix u "?" && Nat.eqb (strings.CountByte u "?") 1
            then (take (String.length u - 1) u, true, "")
            else let '(rest, query) := url.split u "?" true in (rest, false, query))
    as [[rest fq] rq].
  destruct R as [n R]. cbn [fst] in R. subst rest.
  assert (P : strings.HasPrefix (take n u) "//" = false).
  { destruct (strings.HasPrefix (take n u) "//") eqn:E; [|reflexivity].
    apply HasPrefix_take in E. congruence. }
  cbn [String.eqb negb]. rewrite !andb_false_r.
  destruct (_ && _); [discriminate|].
  rewrite P, andb_false_r. cbn [and_then].
  destruct (url.unescape _ _); [|discriminate].
  cbn [and_then]. now intros [= <-].
Qed.

Lemma Parse_host_empty (s : string) (x : url.URL) :
  strings.CountByte s ":" = 0 ->
  strings.HasPrefix s "//" = false ->
  url.Parse s = Ok x -> url.Host x = "".
Proof.
  intros Hc Hp. unfold url.Parse.
  destruct (split_fst_take s "#" true) as [n Hn].
  destruct (url.split s "#" true) as [u frag]. cbn [fst] in Hn. subst u.
  assert (P : strings.HasPrefix (take n s) "//" = false).
  { destruct (strings.HasPrefix (take n s) "//") eqn:E; [|reflexivity].
    apply HasPrefix_take in E. congruence. }
  destruct (url.parse (take n s) false) as [y|] eqn:E; [|discriminate].
  apply (parse_host_empty _ _ (CountByte_take s ":" n Hc) P) in E.
  destruct (String.eqb frag ""); [now intros [= <-]|].
  unfold url.setFragment. destruct (url.unescape frag _); [|discriminate].
  cbn [and_then]. now intros [= <-].
Qed.

Lemma CountByte_drop (s : string) (c : byte) (n : nat) :
  strings.CountByte s c = 0 -> strings.CountByte (drop n s) c = 0.
Proof.
  revert n. induction s as [|d s IH]; intros [|n]; try reflexivity; auto.
  cbn [drop strings.CountByte]. destruct (Ascii.eqb d c); [discriminate|].
  cbn [Nat.add]. apply IH.
Qed.

Lemma parsed_url_no_colon (u : string) : no_colon u -> no_colon (parsed_url u).
Proof.
  unfold no_colon, parsed_url, strip_slashes, strings.TrimSuffix, strings.TrimPrefix.
  intros H. destruct (String.eqb _ ""); [reflexivity|].
  destruct (strings.HasSuffix _ "/"); [apply CountByte_take|];
    (destruct (strings.HasPrefix u "/"); [now apply CountByte_drop|assumption]).
Qed.

(** [tokenize] returns a host only for a URL part that, with one
    leading slash removed, still starts with [//]: bare paths, and the
    forms [host/path] and [//host/path], come back with an empty
    host. *)
Lemma tokenize_host_empty (m u : string) (w : World) (mm h p : string) :
  strings.HasPrefix (parsed_url u) "//" = false ->
  fst (tokenize (path_spec m u) w) = Returned (mm, h, p) ->
  h = "".
Proof.
  intros Hp Ht. destruct (tokenize_returned_no_colon m u w _ Ht) as [Hm Hu].
  rewrite (tokenize_path_spec m u w Hm Hu) in Ht.
  destruct (negb (isValidMethod m)); [discriminate|].
  destruct (url.Parse (parsed_url u)) as [x|] eqn:E; [|discriminate].
  apply (Parse_host_empty _ _ (parsed_url_no_colon u Hu) Hp) in E.
  cbn [fst] in Ht. congruence.
Qed.

(** ** The registry *)

Lemma with_mu_same (w : World) : with_mu (mu (rtr w)) w = w.
Proof. destruct w as [[m rs] out sv]. reflexivity. Qed.

(** Every way a call of [Handle] ends. *)
Lemma Handle_cases (path : string) (h : Handler) (w : World) :
  Handle path h w =
    if mu (rtr w) then (Blocked, w)
    else if is_nil h then (Panicked (PanicError ErrNilHandler), w)
    else match fst (tokenize path initial) with
         | Returned (m, ho, p) => (Returned tt, with_route (mkRoute m ho p h) w)
         | Panicked v => (Panicked v, w)
         | Blocked => (Blocked, with_mu true w)
         end.
Proof.
  destruct w as [[m rs] out sv]. unfold Handle, bind, defer, Lock, Unlock.
  simpl. destruct m; [reflexivity|]. simpl.
  destruct (is_nil h); [reflexivity|].
  rewrite tokenize_eq.
  destruct (fst (tokenize path initial)) as [[[me ho] p]| |]; reflexivity.
Qed.

Lemma Handle_returned (path : string) (h : Handler) (w w' : World) :
  Handle path h w = (Returned tt, w') ->
  mu (rtr w) = false /\ h <> nil_handler /\
  exists m ho p,
    fst (tokenize path initial) = Returned (m, ho, p)
    /\ w' = with_route (mkRoute m ho p h) w.
Proof.
  rewrite Handle_cases. destruct (mu (rtr w)); [discriminate|].
  destruct h; simpl; try discriminate;
    (destruct (fst (tokenize path initial)) as [[[m ho] p]| |];
     [|discriminate|discriminate]);
    intros [= <-]; (split; [reflexivity|]); (split; [discriminate|]);
    exists m, ho, p; auto.
Qed.

Lemma Handle_keeps_handlers_set (path : string) (h : Handler) (w w' : World) :
  handlers_set w -> Handle path h w = (Returned tt, w') -> handlers_set w'.
Proof.
  intros Hw H. apply Handle_returned in H.
  destruct H as (_ & Hh & m & ho & p & _ & ->).
  unfold handlers_set. simpl. apply Forall_app. split; [exact Hw|].
  constructor; [exact Hh|constructor].
Qed.

(** The mutex is free again when [Handle] returns or panics. *)
Lemma Handle_releases_mu (path : string) (h : Handler) (w w' : World) (o : Outcome unit) :
  Handle path h w = (o, w') -> o <> Blocked -> mu (rtr w') = false.
Proof.
  rewrite Handle_cases. destruct (mu (rtr w)) eqn:Hmu.
  - intros [= <- <-]. contradiction.
  - destruct (is_nil h).
    + now intros [= <- <-].
    + destruct (fst (tokenize path initial)) as [[[m ho] p]| |];
        intros [= <- <-]; simpl; auto. contradiction.
Qed.

(** C10. A call of [Handle] that returns has appended exactly one route
    at the end of the sequence: the sequence is one longer, the routes
    registered before are all there, unchanged and in the same order,
    and the new last route carries the handler given.  Nothing else of
    the program state has changed. *)
Theorem Handle_appends_one (path : string) (h : Handler) (w w' : World) :
  Handle path h w = (Returned tt, w') ->
  (exists r, routes (rtr w') = routes (rtr w) ++ [r] /\ handler r = h)
  /\ List.length (routes (rtr w')) = S (List.length (routes (rtr w)))
  /\ firstn (List.length (routes (rtr w))) (routes (rtr w')) = routes (rtr w)
  /\ (forall i r, nth_error (routes (rtr w)) i = Some r ->
                  nth_error (routes (rtr w')) i = Some r)
  /\ mu (rtr w') = mu (rtr w) /\ stdout w' = stdout w /\ served w' = served w.
Proof.
  intros H. apply Handle_returned in H.
  destruct H as (Hmu & _ & m & ho & p & _ & ->). simpl.
  split; [eexists; split; [reflexivity|reflexivity]|].
  split; [rewrite length_app; simpl; lia|].
  split; [rewrite firstn_app, Nat.sub_diag, firstn_all; simpl; apply app_nil_r|].
  split; [|auto].
  intros i r Hi. rewrite nth_error_app1; [exact Hi|].
  apply nth_error_Some. congruence.
Qed.

Lemma Handle_appends_one_witness :
  Handle "GET:/x" (other_handler 1) initial
    = (Returned tt, with_route (mkRoute "GET" "" "x" (other_handler 1)) initial)
  /\ List.length (routes (rtr (with_route (mkRoute "GET" "" "x" (other_handler 1)) initial))) = 1.
Proof.
  assert (H : Handle "GET:/x" (other_handler 1) initial
    = (Returned tt, with_route (mkRoute "GET" "" "x" (other_handler 1)) initial))
    by (vm_compute; reflexivity).
  split; [exact H|].
  exact (proj1 (proj2 (Handle_appends_one _ _ _ _ H))).
Defined.

(** With the mutex free, [Handle] on a [nil] handler panics with
    [ErrNilHandler] and leaves the program state as it was. *)
Lemma Handle_nil_panics (path : string) (w : World) :
  mu (rtr w) = false ->
  Handle path nil_handler w = (Panicked (PanicError ErrNilHandler), w).
Proof. intros Hmu. rewrite Handle_cases, Hmu. reflexivity. Qed.

(** C8, at an absent function.  [HandleFunc] called with a [nil]
    function fails before anything is touched, the route sequence and
    the rest of the program state being what they were; but what it
    panics with is the string "router: nill handler provided", not
    [ErrNilHandler], the error declared for this case and raised by
    [Handle], the function it wraps. *)
Theorem HandleFunc_nil_panics_with_string (path : string) (w : World) :
  HandleFunc path nil_func w
  = (Panicked (PanicString "router: nill handler provided"), w)
  /\ fst (HandleFunc path nil_func w) <> Panicked (PanicError ErrNilHandler).
Proof. split; [reflexivity|discriminate]. Qed.

(** ** Dispatch *)

Lemma matches_triple (r : Route) (m h p : string) :
  matches r m h p = true <-> triple r = (m, h, p).
Proof.
  unfold matches, triple. rewrite !andb_true_iff, !String.eqb_eq.
  split; [intros [[-> ->] ->]; reflexivity|intros [= -> -> ->]; auto].
Qed.

Lemma printed_nil (w : World) : printed [] w = w.
Proof. destruct w. unfold printed. simpl. now rewrite app_nil_r. Qed.

Lemma printed_cons (r : Route) (rs : list Route) (w : World) :
  printed rs (printed [r] w) = printed (r :: rs) w.
Proof. unfold printed. simpl. now rewrite <- app_assoc. Qed.

(** The loop stops at the first route that matches, having printed the
    routes up to and including it. *)
Lemma match_loop_first (pre post : list Route) (A : Route) (m h p : string) (w : World) :
  (forall r, In r pre -> matches r m h p = false) ->
  matches A m h p = true ->
  match_loop (pre ++ A :: post) m h p w = (Returned (handler A), printed (pre ++ [A]) w).
Proof.
  intros Hpre HA. revert w.
  induction pre as [|r pre IH]; intros w; simpl.
  - unfold bind, Println. simpl. fold (matches A m h p). rewrite HA. reflexivity.
  - unfold bind at 1. unfold Println at 1. simpl.
    fold (matches r m h p). rewrite (Hpre r (or_introl eq_refl)).
    fold (printed [r] w). rewrite IH by (intros; apply Hpre; now right).
    now rewrite printed_cons.
Qed.

(** With no matching route the loop visits every route and leaves
    [handler] at [nil]. *)
Lemma match_loop_none (rs : list Route) (m h p : string) (w : World) :
  (forall r, In r rs -> matches r m h p = false) ->
  match_loop rs m h p w = (Returned nil_handler, printed rs w).
Proof.
  revert w. induction rs as [|r rs IH]; intros w Hrs; simpl.
  - now rewrite printed_nil.
  - unfold bind at 1. unfold Println at 1. simpl.
    fold (matches r m h p). rewrite (Hrs r (or_introl eq_refl)).
    fold (printed [r] w). rewrite IH by (intros; apply Hrs; now right).
    now rewrite printed_cons.
Qed.

(** [match] on a request that [tokenize] accepts. *)
Lemma match_cases (rr : Request) (w : World) (m h p : string) :
  fst (tokenize (request_spec rr) w) = Returned (m, h, p) ->
  match_ rr w =
    let '(o, w') := match_loop (routes (rtr w)) m h p w in
    match o with
    | Returned hd => (Returned (if is_nil hd then NotFoundHandler else hd), w')
    | Panicked v => (Panicked v, w')
    | Blocked => (Blocked, w')
    end.
Proof.
  intros Ht. unfold match_. fold (request_spec rr). unfold bind at 1.
  rewrite (surjective_pairing (tokenize (request_spec rr) w)), tokenize_state, Ht.
  unfold bind at 1. unfold get_routes at 1. unfold bind.
  destruct (match_loop (routes (rtr w)) m h p w) as [[hd| |] w']; try reflexivity.
  destruct (is_nil hd); reflexivity.
Qed.

(** [match] on a request that [tokenize] rejects: the panic of
    [tokenize] goes through. *)
Lemma match_panics (rr : Request) (w : World) (v : panic_value) :
  fst (tokenize (request_spec rr) w) = Panicked v ->
  match_ rr w = (Panicked v, w) /\ ServeHTTP rr w = (Panicked v, w).
Proof.
  intros Ht. assert (H : match_ rr w = (Panicked v, w)).
  { unfold match_. fold (request_spec rr). unfold bind at 1.
    rewrite (surjective_pairing (tokenize (request_spec rr) w)), tokenize_state, Ht.
    reflexivity. }
  split; [exact H|]. unfold ServeHTTP, bind. now rewrite H.
Qed.

(** A request accepted by [tokenize] that matches no route, in
    particular any such request on an empty registry, is handed to the
    not-found handler. *)
Lemma ServeHTTP_not_found (rr : Request) (w : World) (m h p : string) :
  fst (tokenize (request_spec rr) w) = Returned (m, h, p) ->
  (forall r, In r (routes (rtr w)) -> triple r <> (m, h, p)) ->
  ServeHTTP rr w = (Returned tt, called NotFoundHandler rr (printed (routes (rtr w)) w)).
Proof.
  intros Ht Hno. unfold ServeHTTP, bind.
  rewrite (match_cases rr w m h p Ht), match_loop_none.
  - reflexivity.
  - intros r Hr. specialize (Hno r Hr).
    destruct (matches r m h p) eqn:E; [|reflexivity].
    apply matches_triple in E. contradiction.
Qed.

(** C5. First match wins.  Let routes [A] and [B] with the same triple
    be registered in this order, [A] being the first route of the
    sequence with that triple.  Dispatching a request with that triple
    calls [A]'s handler and no other handler, never [B]'s; the scan has
    looked at the routes up to [A] and at none after it, and the
    dispatch ends as the call of [A]'s handler ends. *)
Theorem first_match_wins
    (rr : Request) (w : World) (m h p : string)
    (pre mid post : list Route) (A B : Route) :
  fst (tokenize (request_spec rr) w) = Returned (m, h, p) ->
  routes (rtr w) = pre ++ A :: mid ++ B :: post ->
  triple A = (m, h, p) ->
  triple B = (m, h, p) ->
  (forall r, In r pre -> triple r <> (m, h, p)) ->
  handler A <> nil_handler ->
  ServeHTTP rr w
  = (handler_outcome (handler A) rr,
     called (handler A) rr (printed (pre ++ [A]) w)).
Proof.
  intros Ht Hrs HA _ Hpre Hnil. unfold ServeHTTP, bind.
  rewrite (match_cases rr w m h p Ht), Hrs, match_loop_first.
  - destruct (handler A); try reflexivity. contradiction.
  - intros r Hr. specialize (Hpre r Hr).
    destruct (matches r m h p) eqn:E; [|reflexivity].
    apply matches_triple in E. contradiction.
  - now apply matches_triple.
Qed.

(** ** Paths in the registry *)

Lemma HasPrefix_two_slashes (s : string) :
  strings.HasPrefix s "/" = false -> strings.HasPrefix s "//" = false.
Proof.
  destruct s as [|c s]; [reflexivity|]. simpl.
  destruct (c =? "/")%char; simpl; [destruct s; discriminate|reflexivity].
Qed.

(** On a clean URL part [tokenize] finds no host and returns as path
    the URL part without its outer slashes, [/] if nothing is left. *)
Lemma tokenize_clean (m u : string) (w : World) (t : string * string * string) :
  clean_url u = true ->
  fst (tokenize (path_spec m u) w) = Returned t ->
  t = (m, "", parsed_url u).
Proof.
  intros Hu Ht. destruct (tokenize_returned_no_colon m u w t Ht) as [Hm Hc].
  rewrite (tokenize_path_spec m u w Hm Hc) in Ht.
  destruct (negb (isValidMethod m)); [discriminate|].
  unfold clean_url in Hu. rewrite !andb_true_iff, !negb_true_iff in Hu.
  destruct Hu as [[Hplain Hpre] _].
  rewrite Parse_plain in Ht.
  - simpl in Ht. congruence.
  - unfold parsed_url. destruct (String.eqb _ ""); [reflexivity|exact Hplain].
  - unfold parsed_url. destruct (String.eqb _ ""); [reflexivity|].
    now apply HasPrefix_two_slashes.
Qed.

Lemma parsed_url_normalized (u : string) (m h : string) (hd : Handler) :
  clean_url u = true -> path_normalized (mkRoute m h (parsed_url u) hd).
Proof.
  unfold clean_url, path_normalized, parsed_url. simpl.
  rewrite !andb_true_iff, !negb_true_iff. intros [[_ Hpre] Hsuf].
  destruct (String.eqb_spec (strip_slashes u) "") as [E|E].
  - repeat split; auto; discriminate.
  - repeat split; [exact E|congruence|congruence].
Qed.

Lemma match_loop_router (rs : list Route) (m h p : string) (w : World) :
  rtr (snd (match_loop rs m h p w)) = rtr w.
Proof.
  revert w. induction rs as [|r rs IH]; intros w; [reflexivity|].
  simpl. unfold bind at 1. unfold Println at 1. simpl.
  destruct (_ && _); [reflexivity|]. now rewrite IH.
Qed.

(** Dispatch reads the router and never writes to it. *)
Lemma ServeHTTP_router (rr : Request) (w : World) :
  rtr (snd (ServeHTTP rr w)) = rtr w.
Proof.
  destruct (fst (tokenize (request_spec rr) w)) as [[[m h] p]|v|] eqn:Ht.
  - unfold ServeHTTP, bind. rewrite (match_cases rr w m h p Ht).
    assert (R := match_loop_router (routes (rtr w)) m h p w).
    destruct (match_loop (routes (rtr w)) m h p w) as [[hd| |] w'];
      simpl in *; exact R.
  - now rewrite (proj2 (match_panics rr w v Ht)).
  - now apply tokenize_not_blocked in Ht.
Qed.

Lemma Handle_paths (m u : string) (h : Handler) (w : World) :
  clean_url u = true ->
  Forall path_normalized (routes (rtr w)) ->
  Forall path_normalized (routes (rtr (snd (Handle (path_spec m u) h w)))).
Proof.
  intros Hu Hw. rewrite Handle_cases.
  destruct (mu (rtr w)); [exact Hw|].
  destruct (is_nil h); [exact Hw|].
  destruct (fst (tokenize (path_spec m u) initial)) as [[[m' ho] p]|v|] eqn:Ht;
    try exact Hw.
  apply (tokenize_clean m u initial _ Hu) in Ht. injection Ht as -> -> ->.
  simpl. apply Forall_app. split; [exact Hw|].
  constructor; [now apply parsed_url_normalized|constructor].
Qed.

Lemma reachable_paths_normalized (w : World) :
  reachable w -> Forall path_normalized (routes (rtr w)).
Proof.
  induction 1 as [|w w' m u h o Hr IH Hu HH|w w' m u f o Hr IH Hu HH|w w' rr o Hr IH HS].
  - constructor.
  - replace w' with (snd (Handle (path_spec m u) h w)) by now rewrite HH.
    now apply Handle_paths.
  - unfold HandleFunc in HH. destruct (is_nil_func f).
    + unfold panic in HH. injection HH as _ <-. exact IH.
    + replace w' with (snd (Handle (path_spec m u) (HandlerFunc f) w)) by now rewrite HH.
      now apply Handle_paths.
  - replace w' with (snd (ServeHTTP rr w)) by now rewrite HS.
    now rewrite ServeHTTP_router.
Qed.

(** What a returning [Handle] stores for a clean URL part. *)
Lemma Handle_stores_stripped_path (m u : string) (h : Handler) (w w' : World) :
  clean_url u = true ->
  Handle (path_spec m u) h w = (Returned tt, w') ->
  routes (rtr w') = routes (rtr w) ++ [mkRoute m "" (parsed_url u) h].
Proof.
  intros Hu HH. apply Handle_returned in HH.
  destruct HH as (_ & _ & m' & ho & p & Ht & ->).
  apply (tokenize_clean m u initial _ Hu) in Ht. injection Ht as -> -> ->.
  reflexivity.
Qed.

(** The amended C4.  Take any program state reached from a new router
    by registering path-specs whose URL part is a plain path (no [#],
    [?], [%], [:] or control byte, and no slash at either end once one
    leading and one trailing slash are removed).  A further such
    registration that returns stores, at the end of the registry, a
    route whose path field is the URL part without its leading and
    trailing slash, or [/] when nothing is left (with the method as
    written, no host and the handler given); and every route of the
    registry has a path that is not empty, ends with a slash only if it
    is the root [/], and starts with a slash only if it is the root
    [/]. *)
Theorem registry_paths_normalized (w : World) :
  reachable w ->
  Forall path_normalized (routes (rtr w))
  /\ (forall (m u : string) (h : Handler) (w' : World),
        clean_url u = true ->
        Handle (path_spec m u) h w = (Returned tt, w') ->
        routes (rtr w') = routes (rtr w) ++ [mkRoute m "" (parsed_url u) h]
        /\ path (mkRoute m "" (parsed_url u) h)
           = (if String.eqb (strings.TrimSuffix (strings.TrimPrefix u "/") "/") ""
              then "/"
              else strings.TrimSuffix (strings.TrimPrefix u "/") "/")
        /\ Forall path_normalized (routes (rtr w'))).
Proof.
  intros Hr. split; [now apply reachable_paths_normalized|].
  intros m u h w' Hu HH.
  split; [exact (Handle_stores_stripped_path m u h w w' Hu HH)|].
  split; [reflexivity|].
  apply reachable_paths_normalized.
  exact (reach_Handle w w' m u h (Returned tt) Hr Hu HH).
Qed.

(** ** The method component *)

(** The amended C1.  When [tokenize] returns, the method component is
    the text written before the separator, byte for byte: its case is
    kept, so it is in upper case only if it was written so.  (That text
    is one of the six verbs up to case, see [isValidMethod].) *)
Theorem tokenize_method_verbatim (s : string) (w : World) (mm h p : string) :
  fst (tokenize s w) = Returned (mm, h, p) ->
  (exists u, s = path_spec mm u /\ no_colon u)
  /\ no_colon mm
  /\ isValidMethod mm = true.
Proof.
  intros H.
  destruct (Nat.eq_dec (strings.CountByte s ":") 1) as [E|E].
  - destruct (one_colon_path_spec s E) as (m & u & -> & Hm & Hu).
    rewrite (tokenize_path_spec m u w Hm Hu) in H.
    destruct (isValidMethod m) eqn:Hv; [|discriminate]. simpl in H.
    destruct (url.Parse _); [|discriminate].
    injection H as <- _ _. split; [exists u; auto|auto].
  - rewrite (tokenize_bad_path s w E) in H. discriminate.
Qed.

Lemma tokenize_method_verbatim_witness :
  fst (tokenize "get:/x" initial) = Returned ("get", "", "x")
  /\ (exists u, "get:/x" = path_spec "get" u /\ no_colon u)
  /\ no_colon "get"
  /\ isValidMethod "get" = true.
Proof.
  split; [reflexivity|].
  apply (tokenize_method_verbatim "get:/x" initial "get" "" "x").
  reflexivity.
Defined.

(** C1 as stated fails: a method written in lower case comes back in
    lower case. *)
Lemma tokenize_does_not_uppercase :
  ~ (forall (m u : string) (w : World) (mm h p : string),
       no_colon m -> no_colon u -> isValidMethod m = true ->
       fst (tokenize (path_spec m u) w) = Returned (mm, h, p) ->
       mm = strings.ToUpper m).
Proof.
  intros H.
  specialize (H "get" "/x" initial "get" "" "x" eq_refl eq_refl eq_refl eq_refl).
  discriminate H.
Qed.

(** ** Host and path *)

(** C3, at the spec's own example.  The URL part [api.example.com/users]
    has no [//] in front, so [url.Parse] reads it as a relative path:
    the host returned is empty and the path is the whole URL part. *)
Theorem tokenize_host_path_form (w : World) :
  tokenize "POST:api.example.com/users" w
  = (Returned ("POST", "", "api.example.com/users"), w).
Proof. rewrite tokenize_eq. reflexivity. Qed.

(** C4 as stated fails: the path stored for [GET:/path-one] does not
    start with a slash. *)
Lemma registered_path_lacks_leading_slash :
  Handle "GET:/path-one" (other_handler 1) initial
  = (Returned tt, with_route (mkRoute "GET" "" "path-one" (other_handler 1)) initial)
  /\ strings.HasPrefix (path (mkRoute "GET" "" "path-one" (other_handler 1))) "/" = false.
Proof. split; reflexivity. Qed.

Lemma registry_paths_normalized_witness :
  reachable (with_route (mkRoute "GET" "" "path-one" (other_handler 1)) initial)
  /\ Forall path_normalized [mkRoute "GET" "" "path-one" (other_handler 1)]
  /\ (forall (m u : string) (h : Handler) (w' : World),
        clean_url u = true ->
        Handle (path_spec m u) h
          (with_route (mkRoute "GET" "" "path-one" (other_handler 1)) initial)
        = (Returned tt, w') ->
        routes (rtr w')
        = [mkRoute "GET" "" "path-one" (other_handler 1)]
            ++ [mkRoute m "" (parsed_url u) h]
        /\ path (mkRoute m "" (parsed_url u) h)
           = (if String.eqb (strings.TrimSuffix (strings.TrimPrefix u "/") "/") ""
              then "/"
              else strings.TrimSuffix (strings.TrimPrefix u "/") "/")
        /\ Forall path_normalized (routes (rtr w'))).
Proof.
  assert (R : reachable (with_route (mkRoute "GET" "" "path-one" (other_handler 1)) initial)).
  { apply (reach_Handle initial _ "GET" "/path-one" (other_handler 1) (Returned tt)).
    - exact reach_New.
    - reflexivity.
    - reflexivity. }
  split; [exact R|].
  exact (registry_paths_normalized _ R).
Defined.

(** ** Dispatch of requests that [tokenize] rejects *)

(** C2, at three requests a server can receive.  [match] tokenizes the
    request with the function written for registration, so a path with a
    colon, a method outside the six verbs, or a path with a stray [%]
    makes dispatch panic with [ErrBadPath], [ErrMethodNotAllowed] or the
    error of [url.Parse], whatever the registry holds, where the claim
    has it produce the not-found response. *)
Theorem ServeHTTP_panics_on_rejected_request (w : World) :
  ServeHTTP (request "GET" "/a:b") w = (Panicked (PanicError ErrBadPath), w)
  /\ ServeHTTP (request "PATCH" "/x") w = (Panicked (PanicError ErrMethodNotAllowed), w)
  /\ ServeHTTP (request "GET" "/a%zz") w
     = (Panicked (PanicError (UrlError (url.mkError "parse" "a%zz" (url.EscapeError "%zz")))), w).
Proof.
  repeat split; apply match_panics; rewrite tokenize_eq; reflexivity.
Qed.

(** ** First match wins, on two registrations of [GET:/x] *)

Lemma first_match_wins_witness :
  (HandleFunc "GET:/x" (func 1) ;; HandleFunc "GET:/x" (func 2)) initial
  = (Returned tt,
     with_route (mkRoute "GET" "" "x" (HandlerFunc (func 2)))
       (with_route (mkRoute "GET" "" "x" (HandlerFunc (func 1))) initial))
  /\ ServeHTTP (request "GET" "/x")
       (with_route (mkRoute "GET" "" "x" (HandlerFunc (func 2)))
          (with_route (mkRoute "GET" "" "x" (HandlerFunc (func 1))) initial))
     = (Returned tt,
        called (HandlerFunc (func 1)) (request "GET" "/x")
          (printed [mkRoute "GET" "" "x" (HandlerFunc (func 1))]
             (with_route (mkRoute "GET" "" "x" (HandlerFunc (func 2)))
                (with_route (mkRoute "GET" "" "x" (HandlerFunc (func 1))) initial)))).
Proof.
  split; [reflexivity|].
  apply (first_match_wins (request "GET" "/x") _ "GET" "" "x" [] [] []
           (mkRoute "GET" "" "x" (HandlerFunc (func 1)))
           (mkRoute "GET" "" "x" (HandlerFunc (func 2)))).
  - reflexivity.
  - reflexivity.
  - reflexivity.
  - reflexivity.
  - intros r [].
  - discriminate.
Defined.

(** * Further properties of the package *)

(** ** Dispatch as a search *)

Lemma request_spec_path_spec (rr : Request) :
  request_spec rr = path_spec (Method rr) (url.Path (URL rr)).
Proof. reflexivity. Qed.

(** The loop of [match], whatever the registry holds. *)
Lemma match_loop_find (rs : list Route) (m h p : string) (w : World) :
  match_loop rs m h p w
  = (Returned (match find (fun r => matches r m h p) rs with
               | Some r => handler r
               | None => nil_handler
               end),
     printed (scanned rs m h p) w).
Proof.
  revert w. induction rs as [|r rs IH]; intros w.
  - cbn. now rewrite printed_nil.
  - cbn [match_loop find scanned]. unfold bind at 1. unfold Println at 1.
    fold (printed [r] w). fold (matches r m h p).
    destruct (matches r m h p); [reflexivity|].
    now rewrite IH, printed_cons.
Qed.

Lemma ServeHTTP_find (rr : Request) (w : World) (m h p : string) :
  fst (tokenize (request_spec rr) w) = Returned (m, h, p) ->
  ServeHTTP rr w
  = (handler_outcome (found_handler (find (fun r => matches r m h p) (routes (rtr w)))) rr,
     called (found_handler (find (fun r => matches r m h p) (routes (rtr w)))) rr
       (printed (scanned (routes (rtr w)) m h p) w)).
Proof.
  intros Ht. unfold ServeHTTP, bind.
  rewrite (match_cases rr w m h p Ht), match_loop_find.
  unfold found_handler.
  destruct (find _ _) as [r|]; [|reflexivity].
  destruct (is_nil (handler r)); reflexivity.
Qed.

Lemma tokenize_request_method (rr : Request) (w : World) (m h p : string) :
  fst (tokenize (request_spec rr) w) = Returned (m, h, p) -> m = Method rr.
Proof.
  rewrite request_spec_path_spec. intros Ht.
  destruct (tokenize_returned_no_colon _ _ w _ Ht) as [Hm Hu].
  rewrite (tokenize_path_spec _ _ w Hm Hu) in Ht.
  destruct (negb (isValidMethod (Method rr))); [discriminate|].
  destruct (url.Parse _); [|discriminate].
  cbn [fst] in Ht. congruence.
Qed.

(** X1. For a request that [tokenize] accepts, dispatch is a search for
    the first route of the registry, in registration order, whose
    method, host and path equal the request's triple: the handler of
    that route is called, or the not-found handler if there is no such
    route or its handler is [nil], and [ServeHTTP] ends as that call
    ends.  The method compared is the request's method byte for byte,
    and the routes printed are those up to the route found. *)
Theorem dispatch_first_match (rr : Request) (w : World) (m h p : string) :
  fst (tokenize (request_spec rr) w) = Returned (m, h, p) ->
  m = Method rr
  /\ ServeHTTP rr w
     = (handler_outcome
          (found_handler (find (fun r => matches r m h p) (routes (rtr w)))) rr,
        called (found_handler (find (fun r => matches r m h p) (routes (rtr w)))) rr
          (printed (scanned (routes (rtr w)) m h p) w)).
Proof.
  intros Ht. split.
  - exact (tokenize_request_method rr w m h p Ht).
  - exact (ServeHTTP_find rr w m h p Ht).
Qed.

Lemma dispatch_first_match_witness :
  fst (tokenize (request_spec (request "POST" "/x"))
         (with_route (mkRoute "POST" "" "x" (other_handler 2))
            (with_route (mkRoute "GET" "" "x" (other_handler 1)) initial)))
  = Returned ("POST", "", "x")
  /\ ServeHTTP (request "POST" "/x")
       (with_route (mkRoute "POST" "" "x" (other_handler 2))
          (with_route (mkRoute "GET" "" "x" (other_handler 1)) initial))
     = (Returned tt,
        called (other_handler 2) (request "POST" "/x")
          (printed [mkRoute "GET" "" "x" (other_handler 1);
                    mkRoute "POST" "" "x" (other_handler 2)]
             (with_route (mkRoute "POST" "" "x" (other_handler 2))
                (with_route (mkRoute "GET" "" "x" (other_handler 1)) initial)))).
Proof.
  split; [reflexivity|].
  exact (proj2 (dispatch_first_match (request "POST" "/x") _ "POST" "" "x" eq_refl)).
Defined.

(** ** What dispatch leaves alone *)







(** ** Registration *)

Lemma Handle_cases_at (path : string) (h : Handler) (w : World) :
  mu (rtr w) = false ->
  Handle path h w =
    if is_nil h then (Panicked (PanicError ErrNilHandler), w)
    else match fst (tokenize path w) with
         | Returned (m, ho, p) => (Returned tt, with_route (mkRoute m ho p h) w)
         | Panicked v => (Panicked v, w)
         | Blocked => (Blocked, with_mu true w)
         end.
Proof.
  intros Hmu. now rewrite Handle_cases, Hmu, (tokenize_outcome path w initial).
Qed.

Lemma is_nil_true (h : Handler) : is_nil h = true <-> h = nil_handler.
Proof. destruct h; cbn; split; congruence. Qed.

(** X4. A registration that does not go through changes nothing.  When
    [Handle], called with the mutex free, does not return, it has
    panicked (it never blocks): with [ErrNilHandler] if the handler is
    [nil], otherwise with the very panic of [tokenize] on the path-spec
    ([ErrBadPath], [ErrMethodNotAllowed] or the error of [url.Parse]);
    and the program state, routes and mutex included, is what it was
    before the call. *)
Theorem Handle_failure_atomic (path : string) (h : Handler) (w w' : World)
    (o : Outcome unit) :
  mu (rtr w) = false ->
  Handle path h w = (o, w') ->
  o <> Returned tt ->
  w' = w
  /\ ((h = nil_handler /\ o = Panicked (PanicError ErrNilHandler))
      \/ (h <> nil_handler
          /\ exists v, o = Panicked v /\ fst (tokenize path w) = Panicked v)).
Proof.
  intros Hmu HH Ho. rewrite (Handle_cases_at path h w Hmu) in HH.
  destruct (is_nil h) eqn:Hn.
  - injection HH as <- <-. split; [reflexivity|]. left.
    split; [now apply is_nil_true|reflexivity].
  - assert (Hh : h <> nil_handler)
      by (intros E; apply is_nil_true in E; congruence).
    destruct (fst (tokenize path w)) as [[[m ho] p]|v|] eqn:Ht.
    + injection HH as <- _. now contradiction Ho.
    + injection HH as <- <-. split; [reflexivity|]. right.
      split; [exact Hh|]. now exists v.
    + now apply tokenize_not_blocked in Ht.
Qed.

Lemma Handle_failure_atomic_witness :
  mu (rtr initial) = false
  /\ Handle "PATCH:/x" (other_handler 1) initial
     = (Panicked (PanicError ErrMethodNotAllowed), initial)
  /\ initial = initial
  /\ ((other_handler 1 = nil_handler
       /\ @Panicked unit (PanicError ErrMethodNotAllowed)
          = Panicked (PanicError ErrNilHandler))
      \/ (other_handler 1 <> nil_handler
          /\ exists v, @Panicked unit (PanicError ErrMethodNotAllowed) = Panicked v
                       /\ fst (tokenize "PATCH:/x" initial) = Panicked v)).
Proof.
  split; [reflexivity|]. split; [reflexivity|].
  apply (Handle_failure_atomic "PATCH:/x" (other_handler 1) initial initial
           (Panicked (PanicError ErrMethodNotAllowed))).
  - reflexivity.
  - reflexivity.
  - discriminate.
Defined.

(** X5. [Handle] returns if and only if the mutex is free, the handler
    is not [nil] and [tokenize] accepts the path-spec. *)
Theorem Handle_returns_iff (path : string) (h : Handler) (w : World) :
  (exists w', Handle path h w = (Returned tt, w'))
  <-> (mu (rtr w) = false /\ h <> nil_handler
       /\ exists t, fst (tokenize path w) = Returned t).
Proof.
  split.
  - intros [w' H]. apply Handle_returned in H.
    destruct H as (Hmu & Hh & m & ho & p & Ht & _).
    split; [exact Hmu|]. split; [exact Hh|].
    exists (m, ho, p). now rewrite (tokenize_outcome path w initial).
  - intros (Hmu & Hh & [[m ho] p] & Ht).
    rewrite (Handle_cases_at path h w Hmu), Ht.
    destruct (is_nil h) eqn:Hn; [apply is_nil_true in Hn; contradiction|].
    now eexists.
Qed.

Lemma tokenize_returned_valid (s : string) (w : World) (m h p : string) :
  fst (tokenize s w) = Returned (m, h, p) -> isValidMethod m = true.
Proof.
  intros H.
  destruct (Nat.eq_dec (strings.CountByte s ":") 1) as [E|E].
  - destruct (one_colon_path_spec s E) as (m' & u & -> & Hm & Hu).
    rewrite (tokenize_path_spec m' u w Hm Hu) in H.
    destruct (isValidMethod m') eqn:Hv; [|discriminate]. cbn [negb] in H.
    destruct (url.Parse _); [|discriminate]. cbn [fst] in H. congruence.
  - rewrite (tokenize_bad_path s w E) in H. discriminate.
Qed.

Lemma Handle_sound (path : string) (h : Handler) (w : World) :
  mu (rtr w) = false -> Forall route_sound (routes (rtr w)) ->
  mu (rtr (snd (Handle path h w))) = false
  /\ Forall route_sound (routes (rtr (snd (Handle path h w)))).
Proof.
  intros Hmu Hw. rewrite (Handle_cases_at path h w Hmu).
  destruct (is_nil h) eqn:Hn; [now split|].
  destruct (fst (tokenize path w)) as [[[m ho] p]|v|] eqn:Ht.
  - cbn. split; [exact Hmu|]. apply Forall_app. split; [exact Hw|].
    constructor; [|constructor]. split; cbn.
    + exact (tokenize_returned_valid path w m ho p Ht).
    + intros E. apply is_nil_true in E. congruence.
  - now split.
  - now apply tokenize_not_blocked in Ht.
Qed.

(** X6. In every program state reached from a new router by calls of
    [Handle], [HandleFunc] and [ServeHTTP], whatever their arguments
    and however they ended, the mutex is free and every route of the
    registry has a method that [isValidMethod] accepts and a handler
    that is not [nil]. *)
Theorem reached_registry_sound (w : World) :
  reached w -> mu (rtr w) = false /\ Forall route_sound (routes (rtr w)).
Proof.
  induction 1 as [|w w' path h o Hr [IH1 IH2] HH|w w' path f o Hr [IH1 IH2] HH
                  |w w' rr o Hr IH HS].
  - split; [reflexivity|constructor].
  - replace w' with (snd (Handle path h w)) by now rewrite HH.
    now apply Handle_sound.
  - unfold HandleFunc in HH. destruct (is_nil_func f).
    + unfold panic in HH. injection HH as _ <-. now split.
    + replace w' with (snd (Handle path (HandlerFunc f) w)) by now rewrite HH.
      now apply Handle_sound.
  - replace w' with (snd (ServeHTTP rr w)) by now rewrite HS.
    now rewrite ServeHTTP_router.
Qed.

Lemma reached_registry_sound_witness :
  reached (with_route (mkRoute "get" "" "x" (HandlerFunc (func 3))) initial)
  /\ mu (rtr (with_route (mkRoute "get" "" "x" (HandlerFunc (func 3))) initial)) = false
  /\ Forall route_sound [mkRoute "get" "" "x" (HandlerFunc (func 3))].
Proof.
  assert (R : reached (with_route (mkRoute "get" "" "x" (HandlerFunc (func 3))) initial)).
  { apply (reached_HandleFunc initial _ "get:/x/" (func 3) (Returned tt)).
    - exact reached_New.
    - reflexivity. }
  split; [exact R|]. exact (reached_registry_sound _ R).
Defined.

(** [tokenize] accepts every path-spec with an allowed method and a
    clean URL part. *)
Lemma tokenize_clean_returns (m u : string) (w : World) :
  isValidMethod m = true -> no_colon m -> no_colon u -> clean_url u = true ->
  tokenize (path_spec m u) w = (Returned (m, "", parsed_url u), w).
Proof.
  intros Hv Hm Hu Hc. rewrite (tokenize_path_spec m u w Hm Hu), Hv. cbn [negb].
  unfold clean_url in Hc. rewrite !andb_true_iff, !negb_true_iff in Hc.
  destruct Hc as [[Hplain Hpre] _].
  rewrite Parse_plain; [reflexivity| |].
  - unfold parsed_url. destruct (String.eqb _ ""); [reflexivity|exact Hplain].
  - unfold parsed_url. destruct (String.eqb _ ""); [reflexivity|].
    now apply HasPrefix_two_slashes.
Qed.

(** X7. Registering a path-spec [m:u] goes through whenever the mutex
    is free, the handler is not [nil], [m] is an allowed method and [u]
    is a plain path (clean in the sense of [clean_url], no colon): the
    route appended has the method as written, no host, the URL part
    without its outer slashes as path, and the handler given. *)
Theorem Handle_succeeds_on_clean_spec (m u : string) (h : Handler) (w : World) :
  mu (rtr w) = false -> h <> nil_handler ->
  isValidMethod m = true -> no_colon m -> no_colon u -> clean_url u = true ->
  Handle (path_spec m u) h w
  = (Returned tt, with_route (mkRoute m "" (parsed_url u) h) w).
Proof.
  intros Hmu Hh Hv Hm Hu Hc.
  rewrite (Handle_cases_at _ h w Hmu), (tokenize_clean_returns m u w Hv Hm Hu Hc).
  destruct (is_nil h) eqn:Hn; [apply is_nil_true in Hn; contradiction|reflexivity].
Qed.

Lemma Handle_succeeds_on_clean_spec_witness :
  Handle (path_spec "Put" "/a/b/") (other_handler 4) initial
  = (Returned tt, with_route (mkRoute "Put" "" "a/b" (other_handler 4)) initial).
Proof.
  apply (Handle_succeeds_on_clean_spec "Put" "/a/b/" (other_handler 4) initial).
  - reflexivity.
  - discriminate.
  - reflexivity.
  - reflexivity.
  - reflexivity.
  - reflexivity.
Defined.

(** ** Registration, then dispatch *)

(** X8. A route that has just been registered is served.  After
    [Handle] has returned on the path-spec [m:u] with handler [h], and
    if no route registered before has the same triple, a request with
    method [m] and URL path [u] is dispatched to [h], after a scan of
    the whole registry, and the dispatch ends as the call of [h]
    ends. *)
Theorem registered_route_is_served
    (m u : string) (h : Handler) (w w' : World) (t : string * string * string) :
  Handle (path_spec m u) h w = (Returned tt, w') ->
  fst (tokenize (path_spec m u) w) = Returned t ->
  (forall r, In r (routes (rtr w)) -> triple r <> t) ->
  ServeHTTP (request m u) w'
  = (handler_outcome h (request m u),
     called h (request m u) (printed (routes (rtr w')) w')).
Proof.
  intros HH Ht Hno. apply Handle_returned in HH.
  destruct HH as (_ & Hh & m' & ho & p & Ht' & ->).
  rewrite (tokenize_outcome _ w initial), Ht' in Ht. injection Ht as <-.
  unfold ServeHTTP, bind.
  rewrite (match_cases (request m u) _ m' ho p)
    by (change (request_spec (request m u)) with (path_spec m u);
        now rewrite (tokenize_outcome _ _ initial)).
  cbn [with_route rtr routes].
  rewrite match_loop_first.
  - cbn [handler]. destruct h; try reflexivity. contradiction.
  - intros r Hr. specialize (Hno r Hr).
    destruct (matches r m' ho p) eqn:E; [|reflexivity].
    apply matches_triple in E. contradiction.
  - apply matches_triple. reflexivity.
Qed.

Lemma registered_route_is_served_witness :
  Handle (path_spec "GET" "/path-one") (other_handler 5)
    (with_route (mkRoute "GET" "" "/" (other_handler 0)) initial)
  = (Returned tt,
     with_route (mkRoute "GET" "" "path-one" (other_handler 5))
       (with_route (mkRoute "GET" "" "/" (other_handler 0)) initial))
  /\ ServeHTTP (request "GET" "/path-one")
       (with_route (mkRoute "GET" "" "path-one" (other_handler 5))
          (with_route (mkRoute "GET" "" "/" (other_handler 0)) initial))
     = (Returned tt,
        called (other_handler 5) (request "GET" "/path-one")
          (printed [mkRoute "GET" "" "/" (other_handler 0);
                    mkRoute "GET" "" "path-one" (other_handler 5)]
             (with_route (mkRoute "GET" "" "path-one" (other_handler 5))
                (with_route (mkRoute "GET" "" "/" (other_handler 0)) initial)))).
Proof.
  split; [reflexivity|].
  apply (registered_route_is_served "GET" "/path-one" (other_handler 5)
           (with_route (mkRoute "GET" "" "/" (other_handler 0)) initial)
           (with_route (mkRoute "GET" "" "path-one" (other_handler 5))
              (with_route (mkRoute "GET" "" "/" (other_handler 0)) initial))
           ("GET", "", "path-one")).
  - reflexivity.
  - reflexivity.
  - intros r [<-|[]]. discriminate.
Defined.

(** ** The outer slashes of a URL part *)

Lemma length_append (a b : string) :
  String.length (a ++ b) = String.length a + String.length b.
Proof. induction a as [|c a IH]; cbn; [reflexivity|now rewrite IH]. Qed.

Lemma take_append (a b : string) : take (String.length a) (a ++ b) = a.
Proof. induction a as [|c a IH]; cbn; [now destruct b|now rewrite IH]. Qed.

Lemma drop_append (a b : string) : drop (String.length a) (a ++ b) = b.
Proof. induction a as [|c a IH]; cbn; [reflexivity|exact IH]. Qed.

Lemma TrimSuffix_append (a b : string) : strings.TrimSuffix (a ++ b) b = a.
Proof.
  unfold strings.TrimSuffix, strings.HasSuffix.
  rewrite length_append.
  replace (String.length a + String.length b - String.length b)
    with (String.length a) by lia.
  rewrite drop_append, String.eqb_refl, take_append.
  destruct (Nat.leb_spec (String.length b) (String.length a + String.length b));
    [reflexivity|lia].
Qed.

Lemma TrimSuffix_none (s suffix : string) :
  strings.HasSuffix s suffix = false -> strings.TrimSuffix s suffix = s.
Proof. unfold strings.TrimSuffix. now intros ->. Qed.

Lemma TrimPrefix_none (s prefix : string) :
  strings.HasPrefix s prefix = false -> strings.TrimPrefix s prefix = s.
Proof. unfold strings.TrimPrefix. now intros ->. Qed.

(** With no slash at either end of [u], the four spellings [u], [/u],
    [u/] and [/u/] are stripped to [u]. *)
Lemma strip_slashes_spellings (u : string) :
  strings.HasPrefix u "/" = false -> strings.HasSuffix u "/" = false ->
  strip_slashes u = u
  /\ strip_slashes ("/" ++ u) = u
  /\ strip_slashes (u ++ "/") = u
  /\ strip_slashes ("/" ++ u ++ "/") = u.
Proof.
  intros Hp Hs. unfold strip_slashes.
  split; [now rewrite (TrimPrefix_none u "/" Hp), (TrimSuffix_none u "/" Hs)|].
  split; [cbn; now rewrite (TrimSuffix_none u "/" Hs)|].
  split.
  - destruct u as [|c u]; [reflexivity|].
    rewrite TrimPrefix_none; [apply TrimSuffix_append|].
    cbn in *. exact Hp.
  - change (strings.TrimPrefix ("/" ++ u ++ "/") "/") with (u ++ "/")%string.
    apply TrimSuffix_append.
Qed.

(** The outcome of [tokenize] depends on the URL part through its
    number of colons and through what is handed to [url.Parse]. *)
Lemma tokenize_congr (m u1 u2 : string) (w : World) :
  strings.CountByte u1 ":" = strings.CountByte u2 ":" ->
  parsed_url u1 = parsed_url u2 ->
  tokenize (path_spec m u1) w = tokenize (path_spec m u2) w.
Proof.
  intros Hc Hp.
  destruct (Nat.eq_dec (strings.CountByte m ":" + strings.CountByte u1 ":") 0) as [E|E].
  - rewrite !tokenize_path_spec by (unfold no_colon; lia). now rewrite Hp.
  - rewrite !tokenize_bad_path; [reflexivity| |];
      unfold path_spec; rewrite CountByte_app; cbn; lia.
Qed.

(** X9. One leading slash and one trailing slash of the URL part make
    no difference to [tokenize]: for a URL part [u] with no slash at
    either end (the empty one included), the path-specs [m:/u], [m:u/]
    and [m:/u/] have the outcome of [m:u], whatever [m] is. *)
Theorem tokenize_outer_slashes (m u : string) (w : World) :
  strings.HasPrefix u "/" = false -> strings.HasSuffix u "/" = false ->
  tokenize (path_spec m ("/" ++ u)) w = tokenize (path_spec m u) w
  /\ tokenize (path_spec m (u ++ "/")) w = tokenize (path_spec m u) w
  /\ tokenize (path_spec m ("/" ++ u ++ "/")) w = tokenize (path_spec m u) w.
Proof.
  intros Hp Hs.
  destruct (strip_slashes_spellings u Hp Hs) as (E0 & E1 & E2 & E3).
  repeat split; apply tokenize_congr;
    try (unfold parsed_url; now rewrite ?E0, ?E1, ?E2, ?E3);
    cbn [append strings.CountByte]; rewrite ?CountByte_app; cbn; lia.
Qed.

Lemma tokenize_outer_slashes_witness :
  tokenize (path_spec "GET" ("/" ++ "a/b")) initial = tokenize (path_spec "GET" "a/b") initial
  /\ tokenize (path_spec "GET" ("a/b" ++ "/")) initial = tokenize (path_spec "GET" "a/b") initial
  /\ tokenize (path_spec "GET" ("/" ++ "a/b" ++ "/")) initial
     = tokenize (path_spec "GET" "a/b") initial.
Proof.
  apply (tokenize_outer_slashes "GET" "a/b" initial); reflexivity.
Defined.

(** ** The host of a request *)

Lemma parsed_url_double_slash (p : string) :
  strings.HasPrefix (parsed_url p) "//" = true -> strings.HasPrefix p "///" = true.
Proof.
  unfold parsed_url, strip_slashes.
  destruct (String.eqb _ ""); [discriminate|].
  intros H.
  assert (Q : strings.HasPrefix (strings.TrimPrefix p "/") "//" = true).
  { unfold strings.TrimSuffix in H.
    destruct (strings.HasSuffix _ "/"); [now apply HasPrefix_take in H|exact H]. }
  unfold strings.TrimPrefix in Q.
  destruct (strings.HasPrefix p "/") eqn:P.
  - destruct p as [|c p]; [discriminate|]. cbn in P.
    cbn [String.length drop] in Q. cbn [strings.HasPrefix].
    destruct (c =? "/")%char; [exact Q|discriminate].
  - now rewrite (HasPrefix_two_slashes p P) in Q.
Qed.

(** X10. Requests carry no host into the search.  For a request whose
    URL path does not start with three slashes, the triple that [match]
    looks for has an empty host, so a route registered with a host
    matches no such request. *)
Theorem request_host_empty (rr : Request) (w : World) (m h p : string) :
  strings.HasPrefix (url.Path (URL rr)) "///" = false ->
  fst (tokenize (request_spec rr) w) = Returned (m, h, p) ->
  h = "" /\ (forall r, host r <> "" -> matches r m h p = false).
Proof.
  intros H3 Ht.
  assert (E : h = "").
  { apply (tokenize_host_empty (Method rr) (url.Path (URL rr)) w m h p); [|exact Ht].
    destruct (strings.HasPrefix (parsed_url _) "//") eqn:P; [|reflexivity].
    apply parsed_url_double_slash in P. congruence. }
  split; [exact E|]. subst h. intros r Hr. unfold matches.
  destruct (String.eqb_spec (host r) ""); [contradiction|].
  now rewrite andb_false_r.
Qed.

Lemma request_host_empty_witness :
  strings.HasPrefix (url.Path (URL (request "POST" "/users"))) "///" = false
  /\ fst (tokenize (request_spec (request "POST" "/users")) initial)
     = Returned ("POST", "", "users")
  /\ "" = ""
  /\ (forall r, host r <> "" -> matches r "POST" "" "users" = false).
Proof.
  split; [reflexivity|]. split; [reflexivity|].
  apply (request_host_empty (request "POST" "/users") initial "POST" "" "users");
    reflexivity.
Defined.

(** ** Methods written in ASCII *)

Lemma matched_byte (c d : byte) :
  is_upper c = true -> (code d < 128)%N ->
  upper_code (code d) = upper_code (code c) -> strings.upper_byte d = c.
Proof.
  unfold is_upper, strings.upper_byte, is_lower, byte_in, upper_code.
  change (code "A") with 65%N. change (code "Z") with 90%N.
  change (code "a") with 97%N. change (code "z") with 122%N.
  intros Hc Hd.
  apply andb_true_iff in Hc. destruct Hc as [C1 C2].
  apply N.leb_le in C1. apply N.leb_le in C2.
  destruct (N.leb_spec 97 (code c)); [lia|]. cbn [andb].
  destruct (N.leb_spec 97 (code d)); destruct (N.leb_spec (code d) 122);
    cbn [andb]; intros E.
  - rewrite E. apply ascii_N_embedding.
  - now apply code_inj.
  - now apply code_inj.
  - now apply code_inj.
Qed.

(** An ASCII string that matches a word in capital letters has that
    word as its upper-case form. *)
Lemma match_upper_word (v m : string) :
  upper_word v = true -> ascii_only m = true ->
  case_insensitive_match v m = true -> strings.ToUpper m = v.
Proof.
  revert m. induction v as [|c v IH]; intros [|d m] Hv Hm H; try discriminate.
  - reflexivity.
  - cbn [upper_word] in Hv. apply andb_true_iff in Hv. destruct Hv as [Hc Hv].
    cbn [ascii_only] in Hm. apply andb_true_iff in Hm. destruct Hm as [Hd Hm].
    cbn [case_insensitive_match] in H. rewrite Hd in H.
    apply andb_true_iff in H. destruct H as [E H].
    apply N.eqb_eq in E. apply N.ltb_lt in Hd.
    cbn [strings.ToUpper strings.map_bytes]. fold (strings.ToUpper m).
    now rewrite (matched_byte c d Hc Hd E), (IH m Hv Hm H).
Qed.

Lemma allowed_methods_words (v : string) :
  In v allowed_methods -> upper_word v = true /\ ascii_only v = true.
Proof.
  intros H. repeat (destruct H as [<-|H]; [split; reflexivity|]). destruct H.
Qed.

(** X11. For a method written in ASCII bytes, [isValidMethod] holds if
    and only if the method in upper case is one of GET, POST, PUT,
    DELETE, HEAD, OPTIONS. *)
Theorem isValidMethod_ascii (m : string) :
  ascii_only m = true ->
  (isValidMethod m = true <-> In (strings.ToUpper m) allowed_methods).
Proof.
  intros Hm. rewrite isValidMethod_match. split.
  - intros H. apply existsb_exists in H. destruct H as (v & Hv & H).
    destruct (allowed_methods_words v Hv) as [Hw _].
    now rewrite (match_upper_word v m Hw Hm H).
  - intros H. apply existsb_exists. exists (strings.ToUpper m).
    split; [exact H|]. apply match_ToUpper.
    exact (proj2 (allowed_methods_words _ H)).
Qed.

Lemma isValidMethod_ascii_witness :
  ascii_only "Delete" = true
  /\ (isValidMethod "Delete" = true <-> In (strings.ToUpper "Delete") allowed_methods).
Proof.
  split; [reflexivity|].
  apply (isValidMethod_ascii "Delete"). reflexivity.
Defined.

(** ** Requests that are always served *)

Lemma long_s_drop (m : string) :
  strings.HasPrefix m long_s = true ->
  strings.CountByte m ":" = strings.CountByte (drop 2 m) ":".
Proof.
  destruct m as [|a [|b m]]; cbn; try discriminate.
  - now rewrite andb_false_r.
  - destruct (Ascii.eqb_spec a "197") as [->|]; [|discriminate].
    destruct (Ascii.eqb_spec b "191") as [->|]; [|discriminate].
    reflexivity.
Qed.

Lemma kelvin_sign_drop (m : string) :
  strings.HasPrefix m kelvin_sign = true ->
  strings.CountByte m ":" = strings.CountByte (drop 3 m) ":".
Proof.
  destruct m as [|a [|b [|c m]]]; cbn; rewrite ?andb_false_r; try discriminate.
  destruct (Ascii.eqb_spec a "226") as [->|]; [|discriminate].
  destruct (Ascii.eqb_spec b "132") as [->|]; [|discriminate].
  destruct (Ascii.eqb_spec c "170") as [->|]; [|discriminate].
  reflexivity.
Qed.

Lemma upper_code_colon (d c : byte) :
  is_upper c = true -> upper_code (code d) = upper_code (code c) ->
  (d =? ":")%char = false.
Proof.
  unfold is_upper, byte_in, upper_code.
  change (code "A") with 65%N. change (code "Z") with 90%N.
  intros Hc. apply andb_true_iff in Hc. destruct Hc as [C1 C2].
  apply N.leb_le in C1. apply N.leb_le in C2.
  destruct (Ascii.eqb_spec d ":") as [->|]; [|reflexivity].
  change (code ":") with 58%N. cbn.
  destruct (N.leb_spec 97 (code c)); cbn [andb]; intros E; lia.
Qed.

(** What matches a word in capital letters holds no colon. *)
Lemma match_no_colon (v m : string) :
  upper_word v = true -> case_insensitive_match v m = true -> no_colon m.
Proof.
  unfold no_colon. revert m. induction v as [|c v IH]; intros [|d m] Hv H;
    try discriminate; try reflexivity.
  cbn [upper_word] in Hv. apply andb_true_iff in Hv. destruct Hv as [Hc Hv].
  cbn [case_insensitive_match] in H.
  destruct (code d <? 128)%N.
  - apply andb_true_iff in H. destruct H as [E H]. apply N.eqb_eq in E.
    cbn [strings.CountByte]. rewrite (upper_code_colon d c Hc E).
    exact (IH m Hv H).
  - destruct (_ && strings.HasPrefix (String d m) long_s) eqn:L.
    + apply andb_true_iff in L. destruct L as [_ L].
      rewrite (long_s_drop _ L). exact (IH _ Hv H).
    + destruct (_ && strings.HasPrefix (String d m) kelvin_sign) eqn:K; [|discriminate].
      apply andb_true_iff in K. destruct K as [_ K].
      rewrite (kelvin_sign_drop _ K). exact (IH _ Hv H).
Qed.

Lemma isValidMethod_no_colon (m : string) : isValidMethod m = true -> no_colon m.
Proof.
  rewrite isValidMethod_match. intros H.
  apply existsb_exists in H. destruct H as (v & Hv & H).
  exact (match_no_colon v m (proj1 (allowed_methods_words v Hv)) H).
Qed.

Lemma plain_take (n : nat) (s : string) : plain s = true -> plain (take n s) = true.
Proof.
  revert n. induction s as [|c s IH]; intros [|n] H; try reflexivity.
  cbn [take plain] in *. apply andb_true_iff in H. destruct H as [-> H].
  now apply IH.
Qed.

Lemma plain_drop (n : nat) (s : string) : plain s = true -> plain (drop n s) = true.
Proof.
  revert n. induction s as [|c s IH]; intros [|n] H; try reflexivity; try exact H.
  cbn [drop plain] in *. apply andb_true_iff in H. destruct H as [_ H].
  now apply IH.
Qed.

Lemma plain_parsed_url (p : string) : plain p = true -> plain (parsed_url p) = true.
Proof.
  intros H. unfold parsed_url, strip_slashes, strings.TrimSuffix, strings.TrimPrefix.
  destruct (String.eqb _ ""); [reflexivity|].
  destruct (strings.HasSuffix _ "/"); [apply plain_take|];
    (destruct (strings.HasPrefix p "/"); [now apply plain_drop|exact H]).
Qed.

(** X12. A request with an allowed method and a plain URL path (no [#],
    [?], [%], [:] or control byte, not three slashes in front) is never
    turned down by the router itself: [ServeHTTP] looks for the first
    route with the request's method, no host, and the URL path without
    its outer slashes ([/] if nothing is left), calls that route's
    handler or the not-found handler, and ends as that call ends. *)
Theorem ServeHTTP_serves_plain_request (rr : Request) (w : World) :
  isValidMethod (Method rr) = true ->
  plain (url.Path (URL rr)) = true ->
  strings.HasPrefix (url.Path (URL rr)) "///" = false ->
  ServeHTTP rr w
  = (handler_outcome
       (found_handler
          (find (fun r => matches r (Method rr) "" (parsed_url (url.Path (URL rr))))
                (routes (rtr w)))) rr,
     called (found_handler
               (find (fun r => matches r (Method rr) "" (parsed_url (url.Path (URL rr))))
                     (routes (rtr w)))) rr
       (printed (scanned (routes (rtr w)) (Method rr) "" (parsed_url (url.Path (URL rr)))) w)).
Proof.
  intros Hv Hp H3. apply ServeHTTP_find.
  rewrite request_spec_path_spec.
  rewrite tokenize_path_spec.
  - rewrite Hv. cbn [negb]. rewrite Parse_plain; [reflexivity| |].
    + now apply plain_parsed_url.
    + destruct (strings.HasPrefix (parsed_url _) "//") eqn:P; [|reflexivity].
      apply parsed_url_double_slash in P. congruence.
  - now apply isValidMethod_no_colon.
  - exact (plain_CountByte _ ":" Hp eq_refl).
Qed.

Lemma ServeHTTP_serves_plain_request_witness :
  ServeHTTP (request "HEAD" "/no/such/route/") initial
  = (Returned tt, called NotFoundHandler (request "HEAD" "/no/such/route/") initial).
Proof.
  apply (ServeHTTP_serves_plain_request (request "HEAD" "/no/such/route/") initial);
    reflexivity.
Defined.

(** ** Registration does not disturb the routes already matched *)

Lemma find_app_some {A : Type} (f : A -> bool) (l l' : list A) (x : A) :
  find f l = Some x -> find f (l ++ l') = Some x.
Proof.
  induction l as [|a l IH]; [discriminate|]. cbn.
  destruct (f a); [auto|exact IH].
Qed.

Lemma scanned_app_found (rs rs' : list Route) (m h p : string) (r : Route) :
  find (fun r => matches r m h p) rs = Some r ->
  scanned (rs ++ rs') m h p = scanned rs m h p.
Proof.
  induction rs as [|a rs IH]; [discriminate|]. cbn.
  destruct (matches a m h p); [reflexivity|]. intros H. now rewrite IH.
Qed.

(** X13. A request that a route of the registry matches is still
    dispatched to that route after any further registration: [Handle]
    appends, and the scan stops at the first match, so the handler
    called and the routes scanned are the same as before, and the
    dispatch ends as the call of that handler ends. *)
Theorem registration_keeps_matches
    (rr : Request) (w w' : World) (m ho p : string) (r : Route)
    (path : string) (h : Handler) :
  fst (tokenize (request_spec rr) w) = Returned (m, ho, p) ->
  find (fun r => matches r m ho p) (routes (rtr w)) = Some r ->
  Handle path h w = (Returned tt, w') ->
  ServeHTTP rr w'
  = (handler_outcome (found_handler (Some r)) rr,
     called (found_handler (Some r)) rr (printed (scanned (routes (rtr w)) m ho p) w')).
Proof.
  intros Ht Hf HH. apply Handle_returned in HH.
  destruct HH as (_ & _ & m' & ho' & p' & _ & ->).
  rewrite (ServeHTTP_find rr _ m ho p)
    by (now rewrite (tokenize_outcome _ _ w)).
  cbn [with_route rtr routes].
  now rewrite (find_app_some _ _ _ _ Hf), (scanned_app_found _ _ _ _ _ _ Hf).
Qed.

Lemma registration_keeps_matches_witness :
  ServeHTTP (request "GET" "/x")
    (with_route (mkRoute "GET" "" "x" (other_handler 9))
       (with_route (mkRoute "GET" "" "x" (other_handler 1)) initial))
  = (Returned tt,
     called (other_handler 1) (request "GET" "/x")
       (printed [mkRoute "GET" "" "x" (other_handler 1)]
          (with_route (mkRoute "GET" "" "x" (other_handler 9))
             (with_route (mkRoute "GET" "" "x" (other_handler 1)) initial)))).
Proof.
  apply (registration_keeps_matches (request "GET" "/x")
           (with_route (mkRoute "GET" "" "x" (other_handler 1)) initial)
           (with_route (mkRoute "GET" "" "x" (other_handler 9))
              (with_route (mkRoute "GET" "" "x" (other_handler 1)) initial))
           "GET" "" "x" (mkRoute "GET" "" "x" (other_handler 1))
           "GET:x/" (other_handler 9)).
  - reflexivity.
  - reflexivity.
  - reflexivity.
Defined.

(** ** The third failure of the tokenizer *)

(** X14. [tokenize] fails with an error of [url.Parse] exactly on an
    input [m:u] with a single colon and an allowed method [m] whose URL
    part, one leading and one trailing slash removed ([/] if nothing is
    left), [url.Parse] rejects; the panic carries that very error. *)
Theorem tokenize_UrlError_iff (s : string) (w : World) (e : url.Error) :
  fst (tokenize s w) = Panicked (PanicError (UrlError e))
  <-> exists m u, s = path_spec m u /\ no_colon m /\ no_colon u
                  /\ isValidMethod m = true
                  /\ url.Parse (parsed_url u) = Err e.
Proof.
  split.
  - intros H.
    destruct (Nat.eq_dec (strings.CountByte s ":") 1) as [E|E].
    + destruct (one_colon_path_spec s E) as (m & u & -> & Hm & Hu).
      exists m, u. rewrite (tokenize_path_spec m u w Hm Hu) in H.
      destruct (isValidMethod m); [|discriminate]. cbn [negb] in H.
      destruct (url.Parse (parsed_url u)) as [x|e']; [discriminate|].
      cbn [fst] in H. injection H as ->. auto.
    + rewrite (tokenize_bad_path s w E) in H. discriminate.
  - intros (m & u & -> & Hm & Hu & Hv & Hp).
    now rewrite (tokenize_path_spec m u w Hm Hu), Hv, Hp.
Qed.

(** ** The model on concrete inputs *)

Example tokenize_root :
  fst (tokenize "GET:/" initial) = Returned ("GET", "", "/").
Proof. reflexivity. Qed.

Example tokenize_nested :
  fst (tokenize "GET:/path-one/path-two/" initial)
  = Returned ("GET", "", "path-one/path-two").
Proof. reflexivity. Qed.

Example tokenize_authority :
  fst (tokenize "POST:///api.example.com/users" initial)
  = Returned ("POST", "api.example.com", "/users").
Proof. reflexivity. Qed.

Example tokenize_two_colons :
  fst (tokenize "GET:/x:y" initial) = Panicked (PanicError ErrBadPath).
Proof. reflexivity. Qed.

Example tokenize_patch :
  fst (tokenize "PATCH:/x" initial) = Panicked (PanicError ErrMethodNotAllowed).
Proof. reflexivity. Qed.

Example tokenize_bad_escape :
  fst (tokenize "GET:/a%zz" initial)
  = Panicked (PanicError (UrlError (url.mkError "parse" "a%zz" (url.EscapeError "%zz")))).
Proof. reflexivity. Qed.

(** A lone query mark leaves an empty path, a doubled trailing slash
    leaves one slash: inputs outside [clean_url]. *)
Example tokenize_query_only :
  fst (tokenize "GET:?" initial) = Returned ("GET", "", "").
Proof. reflexivity. Qed.

Example tokenize_double_trailing_slash :
  fst (tokenize "GET:/a//" initial) = Returned ("GET", "", "a/").
Proof. reflexivity. Qed.

(** Simple case folding puts the long s with S. *)
Example isValidMethod_long_s :
  isValidMethod ("PO" ++ long_s ++ "T") = true /\ isValidMethod "POZT" = false.
Proof. split; reflexivity. Qed.

(** The routes of main.go, then requests for [/], [/path-one] and an
    unknown path. *)
Example main_scenario :
  served (snd ((main_routes ;;
                ServeHTTP (request "GET" "/") ;;
                ServeHTTP (request "GET" "/path-one") ;;
                ServeHTTP (request "GET" "/unknown")) initial))
  = [(HandlerFunc (func 0), request "GET" "/");
     (HandlerFunc (func 1), request "GET" "/path-one");
     (NotFoundHandler, request "GET" "/unknown")].
Proof. reflexivity. Qed.

(** A route registered with a host is not reached by a request for its
    path: [match] takes host and path from the request's path alone. *)
Example host_route_unreachable :
  served (snd ((Handle "POST:///api.example.com/users" (other_handler 7) ;;
                ServeHTTP (request "POST" "/users")) initial))
  = [(NotFoundHandler, request "POST" "/users")].
Proof. reflexivity. Qed.

(** [Handle] takes [http.HandlerFunc(nil)], which is not the [nil]
    interface value; a request it is dispatched to makes the call
    panic. *)
Example typed_nil_handler_panics :
  (Handle "GET:/x" (HandlerFunc nil_func) ;; ServeHTTP (request "GET" "/x")) initial
  = (Panicked nil_dereference,
     called (HandlerFunc nil_func) (request "GET" "/x")
       (printed [mkRoute "GET" "" "x" (HandlerFunc nil_func)]
          (with_route (mkRoute "GET" "" "x" (HandlerFunc nil_func)) initial))).
Proof. reflexivity. Qed.

(** A handler that panics on a request makes the dispatch of that
    request panic with the same value. *)
Example panicking_handler :
  fst ((Handle "GET:/x" (handler_of 1 (fun _ => Some (PanicString "boom"))) ;;
        ServeHTTP (request "GET" "/x")) initial)
  = Panicked (PanicString "boom").
Proof. reflexivity. Qed.
